(** * Device classification and the sandbox device client of kata-containers

    A shallow embedding of
      - [src/runtime/pkg/katautils/utils.go]: [VerifyContainerID],
        [GetDeviceInfoByPath], [DeviceFromPath], [FileExists],
        [ResolvePath], [IsBlockDevice];
      - the [kata-runtime device] sub-commands ([list], [attach], [detach]).

    Go values are modelled as the code has them: fixed-width integers are [Z]
    with the conversions written out, Go strings (byte sequences) are
    [string], a Go [error] is an optional [error] value ([None] is [nil]),
    and a function returning [(T, error)] returns a pair. *)

From Stdlib Require Import ZArith List String Ascii Bool Lia.
Import ListNotations.

Local Open Scope string_scope.
Local Open Scope Z_scope.

(** ** Go base types *)

Module Go.

(** Integer conversions [uint32(x)], [uint64(x)], [int64(x)]. *)
Definition uint32 (z : Z) : Z := z mod 2 ^ 32.
Definition uint64 (z : Z) : Z := z mod 2 ^ 64.
Definition int64 (z : Z) : Z := (z + 2 ^ 63) mod 2 ^ 64 - 2 ^ 63.

(** [syscall.Errno]: the error numbers the stat family returns. *)
Inductive Errno : Type :=
| ENOENT | EACCES | ENOTDIR | ELOOP | ENAMETOOLONG | EIO.

Definition strerror (e : Errno) : string :=
  match e with
  | ENOENT => "no such file or directory"
  | EACCES => "permission denied"
  | ENOTDIR => "not a directory"
  | ELOOP => "too many levels of symbolic links"
  | ENAMETOOLONG => "file name too long"
  | EIO => "input/output error"
  end.

(** The dynamic values behind the [error] interface that this code
    produces: [errors.New] and [fmt.Errorf] without [%w] give a plain
    message, [fmt.Errorf] with [%w] keeps the wrapped error, [os.Stat]
    reports a [*fs.PathError], the raw system calls a [syscall.Errno]. *)
Inductive error : Type :=
| errorString (s : string)
| wrapError (msg : string) (err : error)
| PathError (Op Path : string) (Err : error)
| SyscallErrno (e : Errno).

(** The [Error()] method. *)
Fixpoint Error (e : error) : string :=
  match e with
  | errorString s => s
  | wrapError msg _ => msg
  | PathError op path err => op ++ " " ++ path ++ ": " ++ Error err
  | SyscallErrno n => strerror n
  end.

(** [errors.Unwrap]. *)
Definition Unwrap (e : error) : option error :=
  match e with
  | wrapError _ err => Some err
  | PathError _ _ err => Some err
  | _ => None
  end.

Definition errors_New (text : string) : error := errorString text.

(** [fmt.Errorf(prefix + "%w", err)]. *)
Definition Errorf_w (prefix : string) (err : error) : error :=
  wrapError (prefix ++ Error err) err.

(** The double quote character, and [%q] on a string (the escapes of
    [strconv.Quote] that printable ASCII needs). *)
Definition dquote : string := String (ascii_of_nat 34) EmptyString.
Definition backslash : ascii := ascii_of_nat 92.

Fixpoint quote_body (s : string) : string :=
  match s with
  | EmptyString => EmptyString
  | String c r =>
      if (Ascii.eqb c (ascii_of_nat 34) || Ascii.eqb c backslash)%bool
      then String backslash (String c (quote_body r))
      else String c (quote_body r)
  end.

Definition strconv_Quote (s : string) : string :=
  dquote ++ quote_body s ++ dquote.

End Go.

Import Go.

(** ** Package [regexp]

    The patterns of this program use text anchors, character classes of
    ASCII ranges and the postfix repetitions.  [Compile] parses that part of
    the syntax and refuses the rest; [MatchString] reports whether the text
    contains any match.  A class of ASCII ranges accepts no byte of a
    multi-byte UTF-8 sequence, so matching byte by byte agrees with matching
    rune by rune. *)

Module Regexp.

Inductive re : Type :=
| Empty
| BeginText
| EndText
| Lit (c : ascii)
| Class (ranges : list (ascii * ascii))
| Cat (r1 r2 : re)
| Star (r : re)
| Plus (r : re)
| Quest (r : re).

Definition le_ascii (a b : ascii) : bool :=
  Nat.leb (nat_of_ascii a) (nat_of_ascii b).

(** The inside of a bracket expression, after the opening bracket. *)
Fixpoint parse_class (s : string) (acc : list (ascii * ascii))
  : option (list (ascii * ascii) * string) :=
  match s with
  | EmptyString => None
  | String c r =>
      if Ascii.eqb c "]" then Some (rev acc, r)
      else if Ascii.eqb c backslash then None
      else
        match r with
        | String d (String hi r') =>
            if (Ascii.eqb d "-" && negb (Ascii.eqb hi "]"))%bool then
              if le_ascii c hi then parse_class r' ((c, hi) :: acc) else None
            else parse_class r ((c, c) :: acc)
        | _ => parse_class r ((c, c) :: acc)
        end
  end.

Definition is_meta (c : ascii) : bool :=
  existsb (Ascii.eqb c)
    ["*"; "+"; "?"; "("; ")"; "|"; "."; "{"; "}"; backslash; "]"]%char.

Definition parse_atom (c : ascii) (r : string) : option (re * string) :=
  if Ascii.eqb c "^" then Some (BeginText, r)
  else if Ascii.eqb c "$" then Some (EndText, r)
  else if Ascii.eqb c "[" then
    match parse_class r [] with
    | Some (rs, r') => Some (Class rs, r')
    | None => None
    end
  else if is_meta c then None
  else Some (Lit c, r).

Definition parse_repeat (a : re) (r : string) : re * string :=
  match r with
  | String c r' =>
      if Ascii.eqb c "+" then (Plus a, r')
      else if Ascii.eqb c "*" then (Star a, r')
      else if Ascii.eqb c "?" then (Quest a, r')
      else (a, r)
  | EmptyString => (a, r)
  end.

Fixpoint parse_items (fuel : nat) (s : string) : option (list re) :=
  match s with
  | EmptyString => Some []
  | String c r =>
      match fuel with
      | O => None
      | S fuel' =>
          match parse_atom c r with
          | None => None
          | Some (a, r1) =>
              let (a', r2) := parse_repeat a r1 in
              match parse_items fuel' r2 with
              | Some l => Some (a' :: l)
              | None => None
              end
          end
      end
  end.

Definition Compile (expr : string) : option re :=
  match parse_items (String.length expr) expr with
  | Some items => Some (fold_right Cat Empty items)
  | None => None
  end.

(** [MustCompile] panics where [Compile] fails; it is only applied to the
    constant patterns of the program, which compile. *)
Definition MustCompile (expr : string) : re :=
  match Compile expr with
  | Some r => r
  | None => Class []
  end.

Definition in_class (rs : list (ascii * ascii)) (c : ascii) : bool :=
  existsb (fun '(lo, hi) => (le_ascii lo c && le_ascii c hi)%bool) rs.

(** A position in the text: the number of bytes before it and the text
    that remains. *)
Definition pos : Type := (nat * string)%type.

(** The positions reached by one or more rounds of [step], at most [n]. *)
Fixpoint closure (n : nat) (step : pos -> list pos) (from : list pos)
  : list pos :=
  match n with
  | O => []
  | S n' =>
      let next := flat_map step from in
      (next ++ closure n' step next)%list
  end.

(** The positions at which a match of [r] that starts at [p] can end. *)
Fixpoint adv (r : re) (p : pos) : list pos :=
  match r with
  | Empty => [p]
  | BeginText => if Nat.eqb (fst p) 0 then [p] else []
  | EndText => match snd p with EmptyString => [p] | _ => [] end
  | Lit c =>
      match snd p with
      | String a s' => if Ascii.eqb a c then [(S (fst p), s')] else []
      | EmptyString => []
      end
  | Class rs =>
      match snd p with
      | String a s' => if in_class rs a then [(S (fst p), s')] else []
      | EmptyString => []
      end
  | Cat r1 r2 => flat_map (adv r2) (adv r1 p)
  | Plus r1 => closure (S (String.length (snd p))) (adv r1) [p]
  | Star r1 => p :: closure (S (String.length (snd p))) (adv r1) [p]
  | Quest r1 => p :: adv r1 p
  end.

Fixpoint suffixes (n : nat) (s : string) : list pos :=
  (n, s) ::
  match s with
  | EmptyString => []
  | String _ r => suffixes (S n) r
  end.

Definition nonempty {A : Type} (l : list A) : bool :=
  match l with [] => false | _ :: _ => true end.

Definition MatchString (r : re) (s : string) : bool :=
  existsb (fun p => nonempty (adv r p)) (suffixes 0 s).

End Regexp.

(** ** Packages [unicode/utf8] and [unicode/utf16] *)

Module Utf8.

Definition RuneError : Z := 0xFFFD.
Definition RuneSelf : Z := 0x80.
Definition MaxRune : Z := 0x10FFFF.
Definition surrogateMin : Z := 0xD800.
Definition surrogateMax : Z := 0xDFFF.

(** A byte of a Go string as a number, and the conversion [byte(x)]. *)
Definition byteZ (a : ascii) : Z := Z.of_N (N_of_ascii a).
Definition byte (z : Z) : ascii := ascii_of_N (Z.to_N (z mod 256)).

(** [s[i]], read only where [i < len(s)]. *)
Definition idx (s : string) (i : nat) : Z :=
  match String.get i s with
  | Some a => byteZ a
  | None => 0
  end.

Definition xx : Z := 0xF1.
Definition as_ : Z := 0xF0.

(** The table [first]: information about the first byte of an encoding. *)
Definition first (b : Z) : Z :=
  if b <? 0x80 then as_
  else if b <? 0xC2 then xx
  else if b <? 0xE0 then 0x02
  else if b =? 0xE0 then 0x13
  else if b <? 0xED then 0x03
  else if b =? 0xED then 0x23
  else if b <? 0xF0 then 0x03
  else if b =? 0xF0 then 0x34
  else if b <? 0xF4 then 0x04
  else if b =? 0xF4 then 0x44
  else xx.

(** The table [acceptRanges]: the bounds of the second byte. *)
Definition acceptRanges (i : Z) : Z * Z :=
  if i =? 0 then (0x80, 0xBF)
  else if i =? 1 then (0xA0, 0xBF)
  else if i =? 2 then (0x80, 0x9F)
  else if i =? 3 then (0x90, 0xBF)
  else if i =? 4 then (0x80, 0x8F)
  else (0, 0).

Definition locb : Z := 0x80.
Definition hicb : Z := 0xBF.
Definition maskx : Z := 0x3F.
Definition mask2 : Z := 0x1F.
Definition mask3 : Z := 0x0F.
Definition mask4 : Z := 0x07.

Definition DecodeRuneInString (s : string) : Z * nat :=
  let n := Z.of_nat (String.length s) in
  if n <? 1 then (RuneError, 0%nat)
  else
    let s0 := idx s 0 in
    let x := first s0 in
    if x >=? as_ then
      let mask := if Z.testbit x 0 then (-1) else 0 in
      (Z.lor (Z.ldiff s0 mask) (Z.land RuneError mask), 1%nat)
    else
      let sz := Z.land x 7 in
      let accept := acceptRanges (Z.shiftr x 4) in
      if n <? sz then (RuneError, 1%nat)
      else
        let s1 := idx s 1 in
        if ((s1 <? fst accept) || (snd accept <? s1))%bool then (RuneError, 1%nat)
        else if sz <=? 2 then
          (Z.lor (Z.shiftl (Z.land s0 mask2) 6) (Z.land s1 maskx), 2%nat)
        else
          let s2 := idx s 2 in
          if ((s2 <? locb) || (hicb <? s2))%bool then (RuneError, 1%nat)
          else if sz <=? 3 then
            (Z.lor (Z.lor (Z.shiftl (Z.land s0 mask3) 12)
                          (Z.shiftl (Z.land s1 maskx) 6))
                   (Z.land s2 maskx), 3%nat)
          else
            let s3 := idx s 3 in
            if ((s3 <? locb) || (hicb <? s3))%bool then (RuneError, 1%nat)
            else
              (Z.lor (Z.lor (Z.lor (Z.shiftl (Z.land s0 mask4) 18)
                                   (Z.shiftl (Z.land s1 maskx) 12))
                            (Z.shiftl (Z.land s2 maskx) 6))
                     (Z.land s3 maskx), 4%nat).

Definition tx : Z := 0x80.
Definition t2 : Z := 0xC0.
Definition t3 : Z := 0xE0.
Definition t4 : Z := 0xF0.

Definition encode3 (r : Z) : string :=
  String (byte (Z.lor t3 (Z.shiftr r 12)))
    (String (byte (Z.lor tx (Z.land (Z.shiftr r 6) maskx)))
       (String (byte (Z.lor tx (Z.land r maskx))) EmptyString)).

(** [utf8.EncodeRune]: the bytes written. *)
Definition EncodeRune (r : Z) : string :=
  let i := uint32 r in
  if i <=? 0x7F then String (byte r) EmptyString
  else if i <=? 0x7FF then
    String (byte (Z.lor t2 (Z.shiftr r 6)))
      (String (byte (Z.lor tx (Z.land r maskx))) EmptyString)
  else if ((MaxRune <? i) || ((surrogateMin <=? i) && (i <=? surrogateMax)))%bool
  then encode3 RuneError
  else if i <=? 0xFFFF then encode3 r
  else
    String (byte (Z.lor t4 (Z.shiftr r 18)))
      (String (byte (Z.lor tx (Z.land (Z.shiftr r 12) maskx)))
         (String (byte (Z.lor tx (Z.land (Z.shiftr r 6) maskx)))
            (String (byte (Z.lor tx (Z.land r maskx))) EmptyString))).

(** The text after the first [size] bytes, for the sizes
    [DecodeRuneInString] returns on a non-empty text. *)
Definition after (size : nat) (s : string) : option string :=
  match size, s with
  | 1%nat, String _ t0 => Some t0
  | 2%nat, String _ (String _ t1) => Some t1
  | 3%nat, String _ (String _ (String _ t2)) => Some t2
  | 4%nat, String _ (String _ (String _ (String _ t3))) => Some t3
  | _, _ => None
  end.

(** [utf8.ValidString]: every rune of the text decodes without error. *)
Fixpoint valid_loop (fuel : nat) (s : string) : bool :=
  match s with
  | EmptyString => true
  | String _ _ =>
      match fuel with
      | O => false
      | S fuel' =>
          let (c, size) := DecodeRuneInString s in
          if ((c =? RuneError) && Nat.eqb size 1)%bool then false
          else
            match after size s with
            | Some r => valid_loop fuel' r
            | None => false
            end
      end
  end.

Definition ValidString (s : string) : bool :=
  valid_loop (String.length s) s.

End Utf8.

(** ** [DecodeRuneInString] by cases on the text

    The same function written by pattern matching on the text instead of
    its length and indices; the two are shown equal below
    ([DecodeRuneInString_form]). *)

Module Utf8Cases.

Import Utf8.

Definition bad (lo hi s : Z) : bool := ((s <? lo) || (hi <? s))%bool.

Definition rune2 (s0 s1 : Z) : Z :=
  Z.lor (Z.shiftl (Z.land s0 mask2) 6) (Z.land s1 maskx).
Definition rune3 (s0 s1 s2 : Z) : Z :=
  Z.lor (Z.lor (Z.shiftl (Z.land s0 mask3) 12) (Z.shiftl (Z.land s1 maskx) 6))
        (Z.land s2 maskx).
Definition rune4 (s0 s1 s2 s3 : Z) : Z :=
  Z.lor (Z.lor (Z.lor (Z.shiftl (Z.land s0 mask4) 18)
                      (Z.shiftl (Z.land s1 maskx) 12))
               (Z.shiftl (Z.land s2 maskx) 6))
        (Z.land s3 maskx).

Definition err1 : Z * nat := (RuneError, 1%nat).

(** The continuation bytes of a sequence of [sz] bytes whose second byte
    lies between [lo] and [hi]. *)
Definition decode_tail (sz lo hi s0 : Z) (t0 : string) : Z * nat :=
  match t0 with
  | EmptyString => err1
  | String a1 t1 =>
      if bad lo hi (byteZ a1) then err1
      else if sz <=? 2 then (rune2 s0 (byteZ a1), 2%nat)
      else
        match t1 with
        | EmptyString => err1
        | String a2 t2 =>
            if bad locb hicb (byteZ a2) then err1
            else if sz <=? 3 then (rune3 s0 (byteZ a1) (byteZ a2), 3%nat)
            else
              match t2 with
              | EmptyString => err1
              | String a3 t3 =>
                  if bad locb hicb (byteZ a3) then err1
                  else (rune4 s0 (byteZ a1) (byteZ a2) (byteZ a3), 4%nat)
              end
        end
  end.

Definition decode_form (a0 : ascii) (t0 : string) : Z * nat :=
  let s0 := byteZ a0 in
  let x := first s0 in
  if x >=? as_ then
    (Z.lor (Z.ldiff s0 (if Z.testbit x 0 then -1 else 0))
           (Z.land RuneError (if Z.testbit x 0 then -1 else 0)), 1%nat)
  else
    decode_tail (Z.land x 7) (fst (acceptRanges (Z.shiftr x 4)))
                (snd (acceptRanges (Z.shiftr x 4))) s0 t0.

(** The result that reports a malformed sequence. *)
Definition is_error (r : Z * nat) : bool :=
  ((fst r =? RuneError) && Nat.eqb (snd r) 1)%bool.

End Utf8Cases.

Module Utf16.

Definition surr1 : Z := 0xd800.
Definition surr2 : Z := 0xdc00.
Definition surr3 : Z := 0xe000.
Definition surrSelf : Z := 0x10000.
Definition replacementChar : Z := 0xFFFD.

Definition IsSurrogate (r : Z) : bool := ((surr1 <=? r) && (r <? surr3))%bool.

Definition DecodeRune (r1 r2 : Z) : Z :=
  if ((surr1 <=? r1) && (r1 <? surr2) && (surr2 <=? r2) && (r2 <? surr3))%bool
  then Z.lor (Z.shiftl (r1 - surr1) 10) (r2 - surr2) + surrSelf
  else replacementChar.

End Utf16.

(** ** The request type of package [containerdshim] *)

Module Containerdshim.

(** Modelled from the spec: the declaration of [containerdshim.DeviceRequest]
    is not part of the sources at hand.  The spec gives the body of the
    request as a JSON object with the single member [device_path], so the
    struct has one string field, tagged [json:"device_path"]. *)
Record DeviceRequest : Type := mkDeviceRequest { DevicePath : string }.

End Containerdshim.

(** ** Package [encoding/json] *)

Module Json.

Import Utf8 Containerdshim.

Definition dq : ascii := ascii_of_nat 34.

(** The table [htmlSafeSet]: the ASCII bytes written without escaping. *)
Definition htmlSafeSet (b : Z) : bool :=
  ((0x20 <=? b) && (b <? 0x80)
   && negb (b =? 0x22) && negb (b =? 0x26) && negb (b =? 0x3C)
   && negb (b =? 0x3E) && negb (b =? 0x5C))%bool.

Definition hex : string := "0123456789abcdef".

Definition hexdigit (v : Z) : ascii :=
  match String.get (Z.to_nat v) hex with
  | Some c => c
  | None => "0"%char
  end.

(** The escape written for an ASCII byte outside [htmlSafeSet].  (Later
    releases of the library write the two-character escapes for backspace
    and form feed instead of [u0008] and [u000c]; [unquote] below reads both
    forms as the same byte.) *)
Definition escape_byte (a : ascii) : string :=
  let b := byteZ a in
  String backslash
    (if ((b =? 0x5C) || (b =? 0x22))%bool then String a EmptyString
     else if b =? 0x0A then "n"
     else if b =? 0x0D then "r"
     else if b =? 0x09 then "t"
     else "u00" ++ String (hexdigit (Z.shiftr b 4))
                     (String (hexdigit (Z.land b 0xF)) EmptyString)).

(** The loop of [encodeState.string] with [escapeHTML] set: what is
    written for the text from the current index on. *)
Fixpoint string_loop (s : string) : string :=
  match s with
  | EmptyString => EmptyString
  | String a0 t0 =>
      let b := byteZ a0 in
      if b <? RuneSelf then
        (if htmlSafeSet b then String a0 EmptyString else escape_byte a0)
        ++ string_loop t0
      else
        let (c, size) := DecodeRuneInString s in
        if ((c =? RuneError) && Nat.eqb size 1)%bool then
          String backslash "ufffd" ++ string_loop t0
        else
          (if ((c =? 0x2028) || (c =? 0x2029))%bool
           then String backslash "u202" ++ String (hexdigit (Z.land c 0xF)) EmptyString
           else substring 0 size s)
          ++ match size, t0 with
             | 1%nat, _ => string_loop t0
             | 2%nat, String _ t1 => string_loop t1
             | 3%nat, String _ (String _ t2) => string_loop t2
             | 4%nat, String _ (String _ (String _ t3)) => string_loop t3
             | _, _ => EmptyString
             end
  end.

Definition encode_string (s : string) : string :=
  String dq (string_loop s ++ String dq EmptyString).

(** [json.Marshal] of a [DeviceRequest]; it has no failing case for a
    struct of one string field. *)
Definition Marshal (v : DeviceRequest) : string * option error :=
  ("{" ++ String dq ("device_path" ++ String dq (":"
    ++ encode_string (DevicePath v) ++ "}")), None).

(** *** Decoding

    Modelled from the spec: the decoding side lives in the shim, which is
    not part of the sources at hand.  This is [json.Unmarshal] into a
    [DeviceRequest] for a JSON object whose members are strings. *)

Definition is_space (c : ascii) : bool :=
  existsb (Ascii.eqb c)
    [" "%char; ascii_of_nat 9; ascii_of_nat 10; ascii_of_nat 13].

Fixpoint skip_ws (s : string) : string :=
  match s with
  | EmptyString => EmptyString
  | String c r => if is_space c then skip_ws r else s
  end.

Definition hexval (c : ascii) : option Z :=
  let b := byteZ c in
  if ((0x30 <=? b) && (b <=? 0x39))%bool then Some (b - 0x30)
  else if ((0x61 <=? b) && (b <=? 0x66))%bool then Some (b - 0x61 + 10)
  else if ((0x41 <=? b) && (b <=? 0x46))%bool then Some (b - 0x41 + 10)
  else None.

(** [getu4] on the four digits that follow [\u]; [-1] where one of them
    is not a hexadecimal digit. *)
Definition getu4 (h1 h2 h3 h4 : ascii) : Z :=
  match hexval h1, hexval h2, hexval h3, hexval h4 with
  | Some a, Some b, Some c, Some d => ((a * 16 + b) * 16 + c) * 16 + d
  | _, _, _, _ => -1
  end.

Definition prepend (out : string) (r : option (string * string))
  : option (string * string) :=
  match r with
  | Some (t, rest) => Some (out ++ t, rest)
  | None => None
  end.

(** [unquote], on the text after the opening quote: the decoded string
    and the text after the closing quote. *)
Fixpoint unquote (s : string) : option (string * string) :=
  match s with
  | EmptyString => None
  | String c r =>
      let b := byteZ c in
      if Ascii.eqb c dq then Some (EmptyString, r)
      else if Ascii.eqb c backslash then
        match r with
        | EmptyString => None
        | String e r' =>
            if (Ascii.eqb e dq || Ascii.eqb e backslash || Ascii.eqb e "/")%bool
            then prepend (String e EmptyString) (unquote r')
            else if Ascii.eqb e "b" then prepend (String (byte 8) EmptyString) (unquote r')
            else if Ascii.eqb e "f" then prepend (String (byte 12) EmptyString) (unquote r')
            else if Ascii.eqb e "n" then prepend (String (byte 10) EmptyString) (unquote r')
            else if Ascii.eqb e "r" then prepend (String (byte 13) EmptyString) (unquote r')
            else if Ascii.eqb e "t" then prepend (String (byte 9) EmptyString) (unquote r')
            else if Ascii.eqb e "u" then
              match r' with
              | String h1 (String h2 (String h3 (String h4 r4))) =>
                  let rr := getu4 h1 h2 h3 h4 in
                  if rr <? 0 then None
                  else if Utf16.IsSurrogate rr then
                    match r4 with
                    | String e1 (String e2 (String g1 (String g2 (String g3 (String g4 r10))))) =>
                        let rr1 :=
                          if (Ascii.eqb e1 backslash && Ascii.eqb e2 "u")%bool
                          then getu4 g1 g2 g3 g4 else -1 in
                        let dec := Utf16.DecodeRune rr rr1 in
                        if negb (dec =? Utf16.replacementChar)
                        then prepend (EncodeRune dec) (unquote r10)
                        else prepend (EncodeRune Utf16.replacementChar) (unquote r4)
                    | _ => prepend (EncodeRune Utf16.replacementChar) (unquote r4)
                    end
                  else prepend (EncodeRune rr) (unquote r4)
              | _ => None
              end
            else None
        end
      else if b <? 0x20 then None
      else if b <? RuneSelf then prepend (String c EmptyString) (unquote r)
      else
        (* coerce to well-formed UTF-8 *)
        let (rr, size) := DecodeRuneInString s in
        prepend (EncodeRune rr)
          match size, r with
          | 1%nat, _ => unquote r
          | 2%nat, String _ r1 => unquote r1
          | 3%nat, String _ (String _ r2) => unquote r2
          | 4%nat, String _ (String _ (String _ r3)) => unquote r3
          | _, _ => None
          end
  end.

Definition string_lit (s : string) : option (string * string) :=
  match s with
  | String c r => if Ascii.eqb c dq then unquote r else None
  | EmptyString => None
  end.

(** The members of the object, after the opening brace. *)
Fixpoint members (fuel : nat) (s : string) (v : DeviceRequest)
  : option (DeviceRequest * string) :=
  match fuel with
  | O => None
  | S fuel' =>
      match string_lit (skip_ws s) with
      | None => None
      | Some (key, r1) =>
          match skip_ws r1 with
          | String c r2 =>
              if Ascii.eqb c ":" then
                match string_lit (skip_ws r2) with
                | None => None
                | Some (val, r3) =>
                    let v' := if String.eqb key "device_path"
                              then mkDeviceRequest val else v in
                    match skip_ws r3 with
                    | String d r4 =>
                        if Ascii.eqb d "," then members fuel' r4 v'
                        else if Ascii.eqb d "}" then Some (v', r4)
                        else None
                    | EmptyString => None
                    end
                end
              else None
          | EmptyString => None
          end
      end
  end.

Definition Unmarshal (data : string) : option DeviceRequest :=
  match skip_ws data with
  | String c r =>
      if Ascii.eqb c "{" then
        let obj :=
          match skip_ws r with
          | String d r' =>
              if Ascii.eqb d "}" then Some (mkDeviceRequest EmptyString, r')
              else members (String.length data) r (mkDeviceRequest EmptyString)
          | EmptyString => None
          end in
        match obj with
        | Some (v, rest) =>
            match skip_ws rest with
            | EmptyString => Some v
            | String _ _ => None
            end
        | None => None
        end
      else None
  | EmptyString => None
  end.

End Json.

(** ** The host kernel: names, nodes and the stat family

    The classifier only reads metadata.  The kernel is a parameter of every
    function that performs a system call.  [namei] is the result of walking
    a non-empty path name without following a symbolic link in its last
    component: either an error number or the node found there. *)

Module Unix.

(** The fields of [unix.Stat_t] that the classifier reads
    ([Mode], [Uid], [Gid] are [uint32], [Rdev] is [uint64]). *)
Record Stat_t : Type := mkStat {
  Mode : Z;
  Rdev : Z;
  Uid : Z;
  Gid : Z
}.

Definition S_IFMT : Z := 0xf000.
Definition S_IFSOCK : Z := 0xc000.
Definition S_IFLNK : Z := 0xa000.
Definition S_IFREG : Z := 0x8000.
Definition S_IFBLK : Z := 0x6000.
Definition S_IFDIR : Z := 0x4000.
Definition S_IFCHR : Z := 0x2000.
Definition S_IFIFO : Z := 0x1000.

(** A node: its metadata and, for a symbolic link, the name it holds. *)
Record inode : Type := mkInode {
  i_stat : Stat_t;
  i_target : string
}.

Record Kernel : Type := mkKernel {
  namei : string -> Errno + inode
}.

Definition fmt_of (st : Stat_t) : Z := Z.land (Mode st) S_IFMT.

(** The empty name resolves to nothing (ENOENT). *)
Definition lookup (k : Kernel) (path : string) : Errno + inode :=
  if String.eqb path "" then inl ENOENT else namei k path.

(** [lstat(2)]: the node itself. *)
Definition sys_lstat (k : Kernel) (path : string) : Errno + Stat_t :=
  match lookup k path with
  | inl e => inl e
  | inr nd => inr (i_stat nd)
  end.

(** [stat(2)]: symbolic links in the last component are followed, at most
    [MAXSYMLINKS] of them. *)
Definition MAXSYMLINKS : nat := 40.

Fixpoint follow (k : Kernel) (hops : nat) (path : string) : Errno + Stat_t :=
  match lookup k path with
  | inl e => inl e
  | inr nd =>
      if fmt_of (i_stat nd) =? S_IFLNK then
        match hops with
        | O => inl ELOOP
        | S h => follow k h (i_target nd)
        end
      else inr (i_stat nd)
  end.

Definition sys_stat (k : Kernel) (path : string) : Errno + Stat_t :=
  follow k MAXSYMLINKS path.

(** [unix.Lstat(path, &stat)]. *)
Definition Lstat (k : Kernel) (path : string) : Errno + Stat_t :=
  sys_lstat k path.

(** [unix.Major] and [unix.Minor] (golang.org/x/sys/unix, Linux). *)
Definition Major (dev : Z) : Z :=
  let major := uint32 (Z.shiftr (Z.land dev 0x00000000000fff00) 8) in
  Z.lor major (uint32 (Z.shiftr (Z.land dev 0xfffff00000000000) 32)).

Definition Minor (dev : Z) : Z :=
  let minor := uint32 (Z.shiftr (Z.land dev 0x00000000000000ff) 0) in
  Z.lor minor (uint32 (Z.shiftr (Z.land dev 0x00000ffffff00000) 12)).

End Unix.

(** ** Package [os]: [os.Stat] and [os.FileInfo] *)

Module Os.

(** The [FileInfo] that [os.Stat] returns keeps the [Stat_t] it was filled
    from; [IsDir] tests the type bits. *)
Record FileInfo : Type := mkFileInfo { sys : Unix.Stat_t }.

Definition IsDir (fi : FileInfo) : bool :=
  Unix.fmt_of (sys fi) =? Unix.S_IFDIR.

(** [os.Stat(name)]: a failure is a [*PathError] with [Op = "stat"]. *)
Definition Stat (k : Unix.Kernel) (name : string)
  : option FileInfo * option error :=
  match Unix.sys_stat k name with
  | inl e => (None, Some (PathError "stat" name (SyscallErrno e)))
  | inr st => (Some (mkFileInfo st), None)
  end.

End Os.

(** ** Package [katautils]: the device classifier *)

Module Config.

(** Modelled from the spec: the declaration of [config.DeviceInfo] is not
    part of the sources at hand; these are the fields [DeviceFromPath]
    assigns, which are the fields of the spec's device descriptor.
    [Major], [Minor] are [int64], [UID], [GID] are [uint32], [FileMode] is
    an [os.FileMode] ([uint32]). *)
Record DeviceInfo : Type := mkDeviceInfo {
  ContainerPath : string;
  DevType : string;
  Major : Z;
  Minor : Z;
  UID : Z;
  GID : Z;
  FileMode : Z
}.

(** The zero value, [var devInfo config.DeviceInfo]. *)
Definition zero : DeviceInfo := mkDeviceInfo "" "" 0 0 0 0 0.

End Config.

Module Katautils.

Import Unix Config.

Definition blockDevice : string := "b".
Definition charDevice : string := "c".
Definition fifoDevice : string := "p".

Definition errNotADeviceNode : error := errorString "not a device node".

(** The [switch mode & unix.S_IFMT] of [DeviceFromPath]. *)
Definition devType_of (mode : Z) : option string :=
  let t := Z.land mode S_IFMT in
  if t =? S_IFBLK then Some blockDevice
  else if t =? S_IFCHR then Some charDevice
  else if t =? S_IFIFO then Some fifoDevice
  else None.

Definition DeviceFromPath (k : Kernel) (path : string)
  : option DeviceInfo * option error :=
  match Lstat k path with
  | inl err => (None, Some (SyscallErrno err))
  | inr stat =>
      let devNumber := uint64 (Rdev stat) in
      let major := Unix.Major devNumber in
      let minor := Unix.Minor devNumber in
      let mode := Mode stat in
      match devType_of mode with
      | None => (None, Some errNotADeviceNode)
      | Some devType =>
          let fm := Z.ldiff mode S_IFMT in
          (Some {| ContainerPath := path;
                   DevType := devType;
                   Major := int64 major;
                   Minor := int64 minor;
                   UID := Uid stat;
                   GID := Gid stat;
                   FileMode := fm |}, None)
      end
  end.

Definition GetDeviceInfoByPath (k : Kernel) (devPath : string)
  : DeviceInfo * option error :=
  let devInfo := Config.zero in
  match Os.Stat k devPath with
  | (_, Some err) => (devInfo, Some (Errorf_w "error stating device path: " err))
  | (None, None) => (devInfo, None) (* not a result of [os.Stat] *)
  | (Some stat, None) =>
      if negb (Os.IsDir stat) then
        match DeviceFromPath k devPath with
        | (_, Some err) => (devInfo, Some err)
        | (Some dev, None) => (dev, None)
        | (None, None) => (devInfo, None) (* not a result of [DeviceFromPath] *)
        end
      else (devInfo, None)
  end.

(** *** Identifier validation *)

Definition validCIDRegex : string := "^[a-zA-Z0-9][a-zA-Z0-9_.-]+$".

Definition errBlankID : error := errors_New "ID cannot be blank".

Definition errInvalidID : error :=
  errorString ("invalid container/sandbox ID (should match "
               ++ strconv_Quote validCIDRegex ++ ")").

Definition VerifyContainerID (id : string) : option error :=
  if String.eqb id "" then Some errBlankID
  else
    let validPattern := Regexp.MustCompile validCIDRegex in
    let matches := Regexp.MatchString validPattern id in
    if negb matches then Some errInvalidID
    else None.

End Katautils.

(** ** What [validCIDRegex] compiles to *)

Module Pattern.

Import Regexp.

Definition firstClass : list (ascii * ascii) :=
  [("a", "z"); ("A", "Z"); ("0", "9")]%char.

Definition restClass : list (ascii * ascii) :=
  [("a", "z"); ("A", "Z"); ("0", "9"); ("_", "_"); (".", "."); ("-", "-")]%char.

Definition tailPattern : re := Cat EndText Empty.

Definition validPattern : re :=
  Cat BeginText (Cat (Class firstClass)
                     (Cat (Plus (Class restClass)) tailPattern)).

End Pattern.

(** ** Package [shimclient]: the network layer

    [DoGet], [DoPut] and [DoDelete] are the only way the commands reach the
    shim.  Their code is not part of the sources at hand: a call is recorded
    in the trace of the world with its arguments, and its result is whatever
    the shim replies. *)

Module Shimclient.

Inductive Call : Type :=
| DoGet (sandboxID : string) (timeout : Z) (urlSuffix : string)
| DoPut (sandboxID : string) (timeout : Z)
        (urlSuffix contentType payload : string)
| DoDelete (sandboxID : string) (timeout : Z)
           (urlSuffix contentType payload : string).

(** What a call carries besides its verb. *)
Inductive Verb : Type := GET | PUT | DELETE.

Definition verb (c : Call) : Verb :=
  match c with
  | DoGet _ _ _ => GET
  | DoPut _ _ _ _ _ => PUT
  | DoDelete _ _ _ _ _ => DELETE
  end.

Definition target (c : Call) : string :=
  match c with
  | DoGet id _ _ | DoPut id _ _ _ _ | DoDelete id _ _ _ _ => id
  end.

Definition timeout_of (c : Call) : Z :=
  match c with
  | DoGet _ t _ | DoPut _ t _ _ _ | DoDelete _ t _ _ _ => t
  end.

Definition url_of (c : Call) : string :=
  match c with
  | DoGet _ _ u | DoPut _ _ u _ _ | DoDelete _ _ u _ _ => u
  end.

Definition contentType_of (c : Call) : option string :=
  match c with
  | DoGet _ _ _ => None
  | DoPut _ _ _ ct _ | DoDelete _ _ _ ct _ => Some ct
  end.

Definition payload_of (c : Call) : option string :=
  match c with
  | DoGet _ _ _ => None
  | DoPut _ _ _ _ p | DoDelete _ _ _ _ p => Some p
  end.

End Shimclient.

(** ** The [device] sub-commands of [kata-runtime] *)

Module Cli.

Import Shimclient Containerdshim.

(** The state the actions run in: the package-level variables the flags
    are bound to, the calls made to the network layer so far, and the
    standard output. *)
Record World : Type := mkWorld {
  sandboxID : string;
  devPath : string;
  calls : list Call;
  stdout : string
}.

Definition M (A : Type) : Type := World -> A * World.

Definition ret {A : Type} (a : A) : M A := fun w => (a, w).

Definition bind {A B : Type} (m : M A) (f : A -> M B) : M B :=
  fun w => let (a, w') := m w in f a w'.

Notation "x <- m ;; k" := (bind m (fun x => k))
  (at level 61, m at next level, right associativity).

Definition get_sandboxID : M string := fun w => (sandboxID w, w).
Definition get_devPath : M string := fun w => (devPath w, w).

Definition newline : string := String (ascii_of_nat 10) EmptyString.

(** [fmt.Println]. *)
Definition Println (s : string) : M unit :=
  fun w => (tt, mkWorld (sandboxID w) (devPath w) (calls w)
                        (stdout w ++ s ++ newline)).

(** The world after one more call to the network layer. *)
Definition record (c : Call) (w : World) : World :=
  mkWorld (sandboxID w) (devPath w) (calls w ++ [c])%list (stdout w).

Section Commands.

(** [defaultTimeout] (a [time.Duration], an [int64] count of
    nanoseconds) and [containerdshim.DeviceUrl] are declared outside the
    sources at hand. *)
Variable defaultTimeout : Z.
Variable DeviceUrl : string.

(** The reply of the shim to a call, given the calls made before it:
    the body and the error. *)
Variable shim : list Call -> Call -> string * option error.

Definition invoke (c : Call) : M (string * option error) :=
  fun w => (shim (calls w) c, record c w).

Definition shimclient_DoGet (id : string) (timeout : Z) (url : string)
  : M (string * option error) :=
  invoke (DoGet id timeout url).

Definition shimclient_DoPut (id : string) (timeout : Z)
           (url contentType payload : string) : M (option error) :=
  r <- invoke (DoPut id timeout url contentType payload) ;; ret (snd r).

Definition shimclient_DoDelete (id : string) (timeout : Z)
           (url contentType payload : string) : M (option error) :=
  r <- invoke (DoDelete id timeout url contentType payload) ;; ret (snd r).

(** The [Action] of [listDeviceCommand]. *)
Definition listDeviceAction : M (option error) :=
  id <- get_sandboxID ;;
  match Katautils.VerifyContainerID id with
  | Some err => ret (Some err)
  | None =>
      let url := DeviceUrl in
      r <- shimclient_DoGet id defaultTimeout url ;;
      match r with
      | (_, Some err) => ret (Some err)
      | (body, None) => _ <- Println body ;; ret None
      end
  end.

(** The [Action] of [attachDeviceCommand]. *)
Definition attachDeviceAction : M (option error) :=
  id <- get_sandboxID ;;
  match Katautils.VerifyContainerID id with
  | Some err => ret (Some err)
  | None =>
      p <- get_devPath ;;
      let resizeReq := {| DevicePath := p |} in
      match Json.Marshal resizeReq with
      | (_, Some err) => ret (Some err)
      | (encoded, None) =>
          shimclient_DoPut id (int64 (defaultTimeout * 10)) DeviceUrl
                           "application/json" encoded
      end
  end.

(** The [Action] of [detachDeviceCOmmand]. *)
Definition detachDeviceAction : M (option error) :=
  id <- get_sandboxID ;;
  match Katautils.VerifyContainerID id with
  | Some err => ret (Some err)
  | None =>
      p <- get_devPath ;;
      let resizeReq := {| DevicePath := p |} in
      match Json.Marshal resizeReq with
      | (_, Some err) => ret (Some err)
      | (encoded, None) =>
          shimclient_DoDelete id (int64 (defaultTimeout * 10)) DeviceUrl
                              "application/json" encoded
      end
  end.

End Commands.

End Cli.

(** ** The identifier pattern in the words of the specification

    "Starts with an alphanumeric character, followed by one or more
    characters drawn from alphanumerics, [_], [.], [-]" (case-sensitive,
    anchored at both ends).  Compared with [VerifyContainerID] below. *)

Module Spec.

Definition between (lo hi c : ascii) : bool :=
  (Nat.leb (nat_of_ascii lo) (nat_of_ascii c)
   && Nat.leb (nat_of_ascii c) (nat_of_ascii hi))%bool.

Definition alphanumeric (c : ascii) : bool :=
  (between "a" "z" c || between "A" "Z" c || between "0" "9" c)%bool.

Definition id_char (c : ascii) : bool :=
  (alphanumeric c || Ascii.eqb c "_" || Ascii.eqb c "." || Ascii.eqb c "-")%bool.

Fixpoint all_chars (p : ascii -> bool) (s : string) : bool :=
  match s with
  | EmptyString => true
  | String c r => (p c && all_chars p r)%bool
  end.

Definition well_formed_id (id : string) : bool :=
  match id with
  | EmptyString => false
  | String c rest =>
      (alphanumeric c && negb (String.eqb rest "") && all_chars id_char rest)%bool
  end.

(** The error kind [InvalidIdentifier]: the two failures of
    [VerifyContainerID]. *)
Definition InvalidIdentifier (e : error) : Prop :=
  e = Katautils.errBlankID \/ e = Katautils.errInvalidID.

End Spec.

(** ** A host used to run the definitions on concrete inputs *)

Module Example.

Import Unix.

Definition node (mode rdev uid gid : Z) (target : string) : Errno + inode :=
  inr (mkInode (mkStat mode rdev uid gid) target).

(** A block device 8:0 owned by root:disk, the null device, a FIFO, a
    directory, a regular file, a socket, three symbolic links (to the
    block device, to the directory, to nothing) and a name that cannot be
    searched. *)
Definition host : Kernel :=
  mkKernel (fun p =>
    if String.eqb p "/dev/sda" then node 0x61b0 0x0800 0 6 ""
    else if String.eqb p "/dev/null" then node 0x21b6 0x0103 0 0 ""
    else if String.eqb p "/run/initctl" then node 0x1180 0 0 0 ""
    else if String.eqb p "/tmp" then node 0x43ff 0 0 0 ""
    else if String.eqb p "/etc/hosts" then node 0x81a4 0 0 0 ""
    else if String.eqb p "/run/shim.sock" then node 0xc1ed 0 0 0 ""
    else if String.eqb p "/dev/disk/by-label/data" then node 0xa1ff 0 0 0 "/dev/sda"
    else if String.eqb p "/var/tmp" then node 0xa1ff 0 0 0 "/tmp"
    else if String.eqb p "/dev/gone" then node 0xa1ff 0 0 0 "/dev/sdz"
    else if String.eqb p "/root/dev" then inl EACCES
    else inl ENOENT).

(** A shim that answers every call with an empty listing. *)
Definition quiet (h : list Shimclient.Call) (c : Shimclient.Call)
  : string * option error := ("[]", None).

(** The request for "/dev/null" as JSON text: in the compact form, and with
    a space after the colon. *)
Definition devNullJSON : string :=
  "{" ++ String Json.dq ("device_path" ++ String Json.dq (":"
      ++ String Json.dq ("/dev/null" ++ String Json.dq "}"))).

Definition devNullJSONSpaced : string :=
  "{" ++ String Json.dq ("device_path" ++ String Json.dq (": "
      ++ String Json.dq ("/dev/null" ++ String Json.dq "}"))).

End Example.

(** ** Packages [os] and [errors]: asking what an error is *)

Module Oserror.

(** [underlyingError]: the error inside a [*PathError]. *)
Definition underlyingError (err : error) : error :=
  match err with
  | PathError _ _ e => e
  | _ => err
  end.

(** [Errno.Is(oserror.ErrNotExist)]. *)
Definition Errno_Is_ErrNotExist (e : Errno) : bool :=
  match e with
  | ENOENT => true
  | _ => false
  end.

(** [os.IsNotExist(err)]: it looks inside a [*PathError] and nowhere else.
    (The sentinel [ErrNotExist] itself is not among the errors of this
    program.) *)
Definition IsNotExist (err : option error) : bool :=
  match err with
  | None => false
  | Some e =>
      match underlyingError e with
      | SyscallErrno n => Errno_Is_ErrNotExist n
      | _ => false
      end
  end.

(** [errors.Is(err, os.ErrNotExist)]: it follows the chain of [Unwrap]. *)
Fixpoint errors_Is_ErrNotExist (err : error) : bool :=
  match err with
  | SyscallErrno n => Errno_Is_ErrNotExist n
  | wrapError _ e => errors_Is_ErrNotExist e
  | PathError _ _ e => errors_Is_ErrNotExist e
  | errorString _ => false
  end.

End Oserror.

(** ** Package [katautils]: the file helpers *)

Module Files.

Import Unix.

Definition FileExists (k : Kernel) (path : string) : bool :=
  let (_, err) := Os.Stat k path in
  if Oserror.IsNotExist err then false else true.

Section Resolve.

(** [filepath.Abs] and [filepath.EvalSymlinks] depend on the working
    directory and on every component of the path; they are parameters
    here. *)
Variable filepath_Abs : string -> string * option error.
Variable filepath_EvalSymlinks : string -> string * option error.

Definition ResolvePath (path : string) : string * option error :=
  if String.eqb path "" then ("", Some (errorString "path must be specified"))
  else
    match filepath_Abs path with
    | (_, Some err) => ("", Some err)
    | (absolute, None) =>
        match filepath_EvalSymlinks absolute with
        | (_, Some err) =>
            if Oserror.IsNotExist (Some err) then
              (* Make the error clearer than the default *)
              ("", Some (errorString ("file " ++ absolute ++ " does not exist")))
            else ("", Some err)
        | (resolved, None) => (resolved, None)
        end
    end.

Definition IsBlockDevice (k : Kernel) (filePath : string) : bool :=
  if String.eqb filePath "" then false
  else
    match ResolvePath filePath with
    | (_, Some _) => false
    | (devicePath, None) =>
        match sys_stat k devicePath with
        | inl _ => false
        | inr stat => Z.land (Mode stat) S_IFBLK =? S_IFBLK
        end
    end.

End Resolve.

(** The seven types of a file on Linux. *)
Definition file_type (t : Z) : Prop :=
  t = S_IFSOCK \/ t = S_IFLNK \/ t = S_IFREG \/ t = S_IFBLK
  \/ t = S_IFDIR \/ t = S_IFCHR \/ t = S_IFIFO.

End Files.

(** ** Coercion to valid UTF-8

    What a text becomes when every byte that does not start a well-formed
    sequence is replaced by the replacement character U+FFFD, as
    [encoding/json] documents for the strings it writes. *)

Module Utf8Coerce.

Import Utf8.

Fixpoint coerce_loop (fuel : nat) (s : string) : string :=
  match s with
  | EmptyString => EmptyString
  | String _ t0 =>
      match fuel with
      | O => EmptyString
      | S fuel' =>
          let (c, size) := DecodeRuneInString s in
          if ((c =? RuneError) && Nat.eqb size 1)%bool
          then EncodeRune RuneError ++ coerce_loop fuel' t0
          else substring 0 size s
               ++ match Utf8.after size s with
                  | Some r => coerce_loop fuel' r
                  | None => EmptyString
                  end
      end
  end.

Definition ToValid (s : string) : string := coerce_loop (String.length s) s.

End Utf8Coerce.

(** ** The calls of the device commands, and what an action keeps *)

Module CliTrace.

Import Shimclient Containerdshim Cli.

Section Commands.

Variable defaultTimeout : Z.
Variable DeviceUrl : string.

Definition getCall (w : World) : Call :=
  DoGet (sandboxID w) defaultTimeout DeviceUrl.

Definition putCall (w : World) : Call :=
  DoPut (sandboxID w) (int64 (defaultTimeout * 10)) DeviceUrl "application/json"
        (fst (Json.Marshal {| DevicePath := devPath w |})).

Definition deleteCall (w : World) : Call :=
  DoDelete (sandboxID w) (int64 (defaultTimeout * 10)) DeviceUrl "application/json"
           (fst (Json.Marshal {| DevicePath := devPath w |})).

End Commands.

(** [w'] has the flags of [w] and its calls, followed by [new]. *)
Definition extends (w w' : World) (new : list Call) : Prop :=
  sandboxID w' = sandboxID w /\ devPath w' = devPath w
  /\ calls w' = (calls w ++ new)%list.

End CliTrace.

(** ** The path functions of the example host *)

Module ExampleFiles.

(** The names of the example host are absolute and clean. *)
Definition abs (p : string) : string * option error := (p, None).

Definition evalSymlinks (p : string) : string * option error :=
  if String.eqb p "/dev/disk/by-label/data" then ("/dev/sda", None)
  else if String.eqb p "/var/tmp" then ("/tmp", None)
  else if String.eqb p "/dev/gone"
  then ("", Some (PathError "lstat" "/dev/sdz" (SyscallErrno ENOENT)))
  else
    match Unix.lookup Example.host p with
    | inl e => ("", Some (PathError "lstat" p (SyscallErrno e)))
    | inr _ => (p, None)
    end.

(** A shim that refuses every call. *)
Definition failing (h : list Shimclient.Call) (c : Shimclient.Call)
  : string * option error := ("", Some (errorString "500 Internal Server Error")).

End ExampleFiles.

(** * Properties of the device classifier *)

Module ClassifierFacts.

Import Unix Config Katautils.

Lemma lookup_empty (k : Kernel) : lookup k "" = inl ENOENT.
Proof. reflexivity. Qed.

Lemma Lstat_ok_nonempty (k : Kernel) (path : string) (stat : Stat_t) :
  Lstat k path = inr stat -> path <> "".
Proof.
  intros H E. subst path. unfold Lstat, sys_lstat in H.
  rewrite lookup_empty in H. discriminate.
Qed.

Lemma Lstat_ok_lookup (k : Kernel) (path : string) (stat : Stat_t) :
  Lstat k path = inr stat ->
  exists nd, lookup k path = inr nd /\ i_stat nd = stat.
Proof.
  unfold Lstat, sys_lstat. destruct (lookup k path) as [e | nd]; intros H.
  - discriminate.
  - exists nd. split; [reflexivity | congruence].
Qed.

(** A node that is not a symbolic link is what [stat] reports. *)
Lemma sys_stat_not_link (k : Kernel) (path : string) (nd : inode) :
  lookup k path = inr nd -> fmt_of (i_stat nd) <> S_IFLNK ->
  sys_stat k path = inr (i_stat nd).
Proof.
  intros Hl Hn. unfold sys_stat, MAXSYMLINKS. cbn [follow]. rewrite Hl.
  destruct (Z.eqb_spec (fmt_of (i_stat nd)) S_IFLNK); [contradiction | reflexivity].
Qed.

(** The masks of [unix.Major] and [unix.Minor] only read the low 64 bits. *)
Lemma land_uint64 (z m : Z) :
  Z.land (Z.ones 64) m = m -> Z.land (uint64 z) m = Z.land z m.
Proof.
  intros Hm. unfold uint64. rewrite <- Z.land_ones by lia.
  rewrite <- Z.land_assoc, Hm. reflexivity.
Qed.

Lemma Major_uint64 (dev : Z) : Unix.Major (uint64 dev) = Unix.Major dev.
Proof. unfold Unix.Major. rewrite !land_uint64 by reflexivity. reflexivity. Qed.

Lemma Minor_uint64 (dev : Z) : Unix.Minor (uint64 dev) = Unix.Minor dev.
Proof. unfold Unix.Minor. rewrite !land_uint64 by reflexivity. reflexivity. Qed.

Lemma uint32_range (z : Z) : 0 <= uint32 z < 2 ^ 32.
Proof. unfold uint32. apply Z.mod_pos_bound. lia. Qed.

Lemma lor_range (a b n : Z) :
  0 <= n -> 0 <= a < 2 ^ n -> 0 <= b < 2 ^ n -> 0 <= Z.lor a b < 2 ^ n.
Proof.
  intros Hn Ha Hb.
  destruct (Z.eq_dec a 0) as [-> | Ha0]; [rewrite Z.lor_0_l; exact Hb |].
  destruct (Z.eq_dec b 0) as [-> | Hb0]; [rewrite Z.lor_0_r; exact Ha |].
  assert (H0 : 0 <= Z.lor a b) by (apply Z.lor_nonneg; lia).
  split; [exact H0 |].
  assert (Hne : Z.lor a b <> 0).
  { intros E. apply Z.lor_eq_0_iff in E. lia. }
  apply Z.log2_lt_pow2; [lia |].
  rewrite Z.log2_lor by lia.
  apply Z.max_lub_lt; apply Z.log2_lt_pow2; lia.
Qed.

Lemma Major_range (dev : Z) : 0 <= Unix.Major dev < 2 ^ 32.
Proof. unfold Unix.Major. apply lor_range; [lia | apply uint32_range ..]. Qed.

Lemma Minor_range (dev : Z) : 0 <= Unix.Minor dev < 2 ^ 32.
Proof. unfold Unix.Minor. apply lor_range; [lia | apply uint32_range ..]. Qed.

Lemma int64_small (z : Z) : 0 <= z < 2 ^ 32 -> int64 z = z.
Proof.
  intros H. unfold int64. rewrite Z.mod_small; lia.
Qed.

Lemma devType_of_device (mode : Z) :
  Z.land mode S_IFMT = S_IFBLK \/ Z.land mode S_IFMT = S_IFCHR
  \/ Z.land mode S_IFMT = S_IFIFO ->
  devType_of mode =
    Some (if Z.land mode S_IFMT =? S_IFBLK then "b"
          else if Z.land mode S_IFMT =? S_IFCHR then "c" else "p").
Proof.
  unfold devType_of. intros [E | [E | E]]; rewrite E; reflexivity.
Qed.

Lemma devType_of_other (mode : Z) :
  Z.land mode S_IFMT <> S_IFBLK -> Z.land mode S_IFMT <> S_IFCHR ->
  Z.land mode S_IFMT <> S_IFIFO -> devType_of mode = None.
Proof.
  unfold devType_of. intros Hb Hc Hf.
  destruct (Z.eqb_spec (Z.land mode S_IFMT) S_IFBLK); [contradiction |].
  destruct (Z.eqb_spec (Z.land mode S_IFMT) S_IFCHR); [contradiction |].
  destruct (Z.eqb_spec (Z.land mode S_IFMT) S_IFIFO); [contradiction |].
  reflexivity.
Qed.

Lemma DeviceFromPath_other (k : Kernel) (path : string) (stat : Stat_t) :
  Lstat k path = inr stat ->
  fmt_of stat <> S_IFBLK -> fmt_of stat <> S_IFCHR -> fmt_of stat <> S_IFIFO ->
  DeviceFromPath k path = (None, Some errNotADeviceNode).
Proof.
  intros Hl Hb Hc Hf. unfold DeviceFromPath. rewrite Hl.
  rewrite (devType_of_other (Mode stat) Hb Hc Hf). reflexivity.
Qed.

(** [GetDeviceInfoByPath] once [os.Stat] has reported something that is
    not a directory: the result of [DeviceFromPath], a failure giving the
    zero descriptor. *)
Lemma GetDeviceInfoByPath_not_dir (k : Kernel) (path : string) (st : Stat_t) :
  sys_stat k path = inr st -> fmt_of st <> S_IFDIR ->
  GetDeviceInfoByPath k path =
    match DeviceFromPath k path with
    | (_, Some err) => (Config.zero, Some err)
    | (Some dev, None) => (dev, None)
    | (None, None) => (Config.zero, None)
    end.
Proof.
  intros Hs Hd. unfold GetDeviceInfoByPath, Os.Stat. rewrite Hs.
  unfold Os.IsDir. cbn [Os.sys].
  destruct (Z.eqb_spec (fmt_of st) S_IFDIR); [contradiction | reflexivity].
Qed.

(** ** C1 *)

(** C1: for a path whose [lstat] succeeds on a block device, a character
    device or a FIFO, [DeviceFromPath] returns a descriptor and no error;
    the descriptor's type tag is "b", "c" or "p" accordingly, its major and
    minor are [unix.Major] and [unix.Minor] of the raw device number, its
    uid and gid are those of the stat result, its file mode is the stat
    mode without the [S_IFMT] bits, and its container path is the input
    path, which is not empty. *)
Theorem DeviceFromPath_device (k : Kernel) (path : string) (stat : Stat_t) :
  Lstat k path = inr stat ->
  fmt_of stat = S_IFBLK \/ fmt_of stat = S_IFCHR \/ fmt_of stat = S_IFIFO ->
  exists dev : DeviceInfo,
    DeviceFromPath k path = (Some dev, None) /\
    DevType dev = (if fmt_of stat =? S_IFBLK then "b"
                   else if fmt_of stat =? S_IFCHR then "c" else "p") /\
    Config.Major dev = Unix.Major (Rdev stat) /\
    Config.Minor dev = Unix.Minor (Rdev stat) /\
    UID dev = Uid stat /\
    GID dev = Gid stat /\
    FileMode dev = Z.ldiff (Mode stat) S_IFMT /\
    Z.land (FileMode dev) S_IFMT = 0 /\
    Z.lor (FileMode dev) (Z.land (Mode stat) S_IFMT) = Mode stat /\
    ContainerPath dev = path /\
    path <> "".
Proof.
  intros Hl Ht. unfold DeviceFromPath. rewrite Hl.
  rewrite (devType_of_device (Mode stat) Ht). fold (fmt_of stat).
  eexists. split; [reflexivity |]. cbn.
  repeat split.
  - rewrite Major_uint64. apply int64_small, Major_range.
  - rewrite Minor_uint64. apply int64_small, Minor_range.
  - apply Z.land_ldiff.
  - apply Z.lor_ldiff_and.
  - exact (Lstat_ok_nonempty k path stat Hl).
Qed.

Lemma DeviceFromPath_device_witness :
  exists dev : DeviceInfo,
    DeviceFromPath Example.host "/dev/sda" = (Some dev, None) /\
    DevType dev = "b" /\ Config.Major dev = 8 /\ Config.Minor dev = 0 /\
    UID dev = 0 /\ GID dev = 6 /\ FileMode dev = 0x1b0 /\
    ContainerPath dev = "/dev/sda".
Proof.
  destruct (DeviceFromPath_device Example.host "/dev/sda"
              (mkStat 0x61b0 0x0800 0 6) eq_refl (or_introl eq_refl))
    as (dev & Hd & Ht & Hmaj & Hmin & Hu & Hg & Hm & _ & _ & Hp & _).
  exists dev. repeat split; assumption.
Defined.

(** ** C3 *)

(** C3: for a path that exists and resolves, following symbolic links,
    to a directory, [GetDeviceInfoByPath] returns the zero-value
    descriptor and no error. *)
Theorem GetDeviceInfoByPath_directory (k : Kernel) (path : string) (st : Stat_t) :
  sys_stat k path = inr st ->
  fmt_of st = S_IFDIR ->
  GetDeviceInfoByPath k path = (Config.zero, None).
Proof.
  intros Hs Hd. unfold GetDeviceInfoByPath, Os.Stat. rewrite Hs.
  unfold Os.IsDir. cbn [Os.sys]. rewrite Hd. reflexivity.
Qed.

Lemma GetDeviceInfoByPath_directory_witness :
  GetDeviceInfoByPath Example.host "/tmp" = (Config.zero, None)
  /\ GetDeviceInfoByPath Example.host "/var/tmp" = (Config.zero, None).
Proof.
  split.
  - exact (GetDeviceInfoByPath_directory Example.host "/tmp"
             (mkStat 0x43ff 0 0 0) eq_refl eq_refl).
  - exact (GetDeviceInfoByPath_directory Example.host "/var/tmp"
             (mkStat 0x43ff 0 0 0) eq_refl eq_refl).
Defined.

(** ** C4 *)

(** C4: for a path whose node is not a block device, a character device
    or a FIFO (a regular file, a socket, a symbolic link, ...), the node
    classifier [DeviceFromPath] fails with "not a device node" and returns
    no descriptor.  [GetDeviceInfoByPath] hands that failure on with the
    zero-value descriptor wherever it reaches the node classifier, that is
    when [os.Stat] succeeds on something that is not a directory; this is
    always so when the node is neither a symbolic link nor a directory. *)
Theorem not_a_device_node (k : Kernel) (path : string) (stat : Stat_t) :
  Lstat k path = inr stat ->
  fmt_of stat <> S_IFBLK -> fmt_of stat <> S_IFCHR -> fmt_of stat <> S_IFIFO ->
  DeviceFromPath k path = (None, Some errNotADeviceNode)
  /\ (forall fi : Os.FileInfo,
        Os.Stat k path = (Some fi, None) -> Os.IsDir fi = false ->
        GetDeviceInfoByPath k path = (Config.zero, Some errNotADeviceNode))
  /\ (fmt_of stat <> S_IFLNK -> fmt_of stat <> S_IFDIR ->
      GetDeviceInfoByPath k path = (Config.zero, Some errNotADeviceNode)).
Proof.
  intros Hl Hb Hc Hf.
  pose proof (DeviceFromPath_other k path stat Hl Hb Hc Hf) as Hdev.
  split; [exact Hdev |]. split.
  - intros fi Hfi Hdir. unfold Os.Stat in Hfi.
    destruct (sys_stat k path) as [e | st] eqn:Hs; [discriminate |].
    injection Hfi as <-. unfold Os.IsDir in Hdir. cbn [Os.sys] in Hdir.
    apply Z.eqb_neq in Hdir.
    rewrite (GetDeviceInfoByPath_not_dir k path st Hs Hdir), Hdev. reflexivity.
  - intros Hlnk Hdir.
    destruct (Lstat_ok_lookup k path stat Hl) as (nd & Hnd & <-).
    pose proof (sys_stat_not_link k path nd Hnd Hlnk) as Hs.
    rewrite (GetDeviceInfoByPath_not_dir k path _ Hs Hdir), Hdev. reflexivity.
Qed.

Lemma not_a_device_node_witness :
  (DeviceFromPath Example.host "/etc/hosts" = (None, Some errNotADeviceNode)
   /\ GetDeviceInfoByPath Example.host "/etc/hosts"
      = (Config.zero, Some errNotADeviceNode))
  /\ (DeviceFromPath Example.host "/run/shim.sock" = (None, Some errNotADeviceNode)
      /\ GetDeviceInfoByPath Example.host "/run/shim.sock"
         = (Config.zero, Some errNotADeviceNode))
  /\ DeviceFromPath Example.host "/dev/gone" = (None, Some errNotADeviceNode)
  /\ DeviceFromPath Example.host "/tmp" = (None, Some errNotADeviceNode).
Proof.
  assert (Hne : forall a b : Z, (a =? b) = false -> a <> b)
    by (intros a b; apply Z.eqb_neq).
  pose proof (not_a_device_node Example.host "/etc/hosts" (mkStat 0x81a4 0 0 0)
                eq_refl (Hne (fmt_of (mkStat 0x81a4 0 0 0)) S_IFBLK eq_refl)
                (Hne (fmt_of (mkStat 0x81a4 0 0 0)) S_IFCHR eq_refl)
                (Hne (fmt_of (mkStat 0x81a4 0 0 0)) S_IFIFO eq_refl))
    as (Hreg1 & _ & Hreg2).
  pose proof (not_a_device_node Example.host "/run/shim.sock" (mkStat 0xc1ed 0 0 0)
                eq_refl (Hne (fmt_of (mkStat 0xc1ed 0 0 0)) S_IFBLK eq_refl)
                (Hne (fmt_of (mkStat 0xc1ed 0 0 0)) S_IFCHR eq_refl)
                (Hne (fmt_of (mkStat 0xc1ed 0 0 0)) S_IFIFO eq_refl))
    as (Hsock1 & _ & Hsock2).
  pose proof (not_a_device_node Example.host "/dev/gone" (mkStat 0xa1ff 0 0 0)
                eq_refl (Hne (fmt_of (mkStat 0xa1ff 0 0 0)) S_IFBLK eq_refl)
                (Hne (fmt_of (mkStat 0xa1ff 0 0 0)) S_IFCHR eq_refl)
                (Hne (fmt_of (mkStat 0xa1ff 0 0 0)) S_IFIFO eq_refl))
    as (Hlnk & _).
  pose proof (not_a_device_node Example.host "/tmp" (mkStat 0x43ff 0 0 0)
                eq_refl (Hne (fmt_of (mkStat 0x43ff 0 0 0)) S_IFBLK eq_refl)
                (Hne (fmt_of (mkStat 0x43ff 0 0 0)) S_IFCHR eq_refl)
                (Hne (fmt_of (mkStat 0x43ff 0 0 0)) S_IFIFO eq_refl))
    as (Hdir & _).
  exact (conj (conj Hreg1 (Hreg2 (Hne (fmt_of (mkStat 0x81a4 0 0 0)) S_IFLNK eq_refl)
                                 (Hne (fmt_of (mkStat 0x81a4 0 0 0)) S_IFDIR eq_refl)))
           (conj (conj Hsock1 (Hsock2 (Hne (fmt_of (mkStat 0xc1ed 0 0 0)) S_IFLNK eq_refl)
                                      (Hne (fmt_of (mkStat 0xc1ed 0 0 0)) S_IFDIR eq_refl)))
              (conj Hlnk Hdir))).
Defined.

(** ** C5 *)

(** C5: for a path that [stat] cannot resolve (it does not exist, or the
    walk fails otherwise), [GetDeviceInfoByPath] returns the zero-value
    descriptor and an error that wraps the [*PathError] of [os.Stat],
    which wraps the error number; the error text contains the path. *)
Theorem GetDeviceInfoByPath_unavailable (k : Kernel) (path : string) (e : Errno) :
  sys_stat k path = inl e ->
  let cause := PathError "stat" path (SyscallErrno e) in
  GetDeviceInfoByPath k path = (Config.zero, Some (Errorf_w "error stating device path: " cause))
  /\ Unwrap (Errorf_w "error stating device path: " cause) = Some cause
  /\ Unwrap cause = Some (SyscallErrno e)
  /\ Error (Errorf_w "error stating device path: " cause)
     = "error stating device path: stat " ++ path ++ ": " ++ strerror e.
Proof.
  intros Hs cause. unfold GetDeviceInfoByPath, Os.Stat. rewrite Hs.
  repeat split.
Qed.

Lemma GetDeviceInfoByPath_unavailable_witness :
  snd (GetDeviceInfoByPath Example.host "/dev/sdz")
  = Some (Errorf_w "error stating device path: " (PathError "stat" "/dev/sdz" (SyscallErrno ENOENT)))
  /\ Error (Errorf_w "error stating device path: " (PathError "stat" "/dev/sdz" (SyscallErrno ENOENT)))
     = "error stating device path: stat /dev/sdz: no such file or directory".
Proof.
  destruct (GetDeviceInfoByPath_unavailable Example.host "/dev/sdz" ENOENT eq_refl)
    as (H1 & _ & _ & H4).
  split; [rewrite H1; reflexivity | exact H4].
Defined.

(** A path that names nothing cannot be stated. *)
Lemma sys_stat_missing (k : Kernel) (path : string) (e : Errno) :
  lookup k path = inl e -> sys_stat k path = inl e.
Proof.
  intros H. unfold sys_stat, MAXSYMLINKS. cbn [follow]. rewrite H. reflexivity.
Qed.

(** ** C10 *)

(** C10: for a path that is a symbolic link resolving to a block or
    character device, [GetDeviceInfoByPath] fails with "not a device
    node": [os.Stat] follows the link and sees no directory, [unix.Lstat]
    sees the link itself. *)
Theorem GetDeviceInfoByPath_link_to_device
        (k : Kernel) (path : string) (lnk tgt : Stat_t) :
  Lstat k path = inr lnk ->
  fmt_of lnk = S_IFLNK ->
  sys_stat k path = inr tgt ->
  fmt_of tgt = S_IFBLK \/ fmt_of tgt = S_IFCHR ->
  GetDeviceInfoByPath k path = (Config.zero, Some errNotADeviceNode).
Proof.
  intros Hl Hlnk Hs Htgt.
  assert (Hnd : fmt_of tgt <> S_IFDIR).
  { destruct Htgt as [E | E]; rewrite E; discriminate. }
  rewrite (GetDeviceInfoByPath_not_dir k path tgt Hs Hnd).
  rewrite (DeviceFromPath_other k path lnk Hl); [reflexivity | ..];
    rewrite Hlnk; discriminate.
Qed.

Lemma GetDeviceInfoByPath_link_to_device_witness :
  GetDeviceInfoByPath Example.host "/dev/disk/by-label/data"
  = (Config.zero, Some errNotADeviceNode).
Proof.
  exact (GetDeviceInfoByPath_link_to_device Example.host "/dev/disk/by-label/data"
           (mkStat 0xa1ff 0 0 0) (mkStat 0x61b0 0x0800 0 6)
           eq_refl eq_refl eq_refl (or_introl eq_refl)).
Defined.

End ClassifierFacts.

(** * Properties of identifier validation *)

Module ValidatorFacts.

Import Regexp Katautils Pattern.

Lemma validCIDRegex_compiles :
  Compile validCIDRegex =
    Some (Cat BeginText (Cat (Class firstClass)
                             (Cat (Plus (Class restClass)) tailPattern))).
Proof. vm_compute. reflexivity. Qed.

Lemma MustCompile_validCIDRegex :
  MustCompile validCIDRegex =
    Cat BeginText (Cat (Class firstClass)
                       (Cat (Plus (Class restClass)) tailPattern)).
Proof. unfold MustCompile. rewrite validCIDRegex_compiles. reflexivity. Qed.

Ltac by_all_bytes c :=
  destruct c as [[] [] [] [] [] [] [] []]; vm_compute; reflexivity.

Lemma in_firstClass (c : ascii) : in_class firstClass c = Spec.alphanumeric c.
Proof. by_all_bytes c. Qed.

Lemma in_restClass (c : ascii) : in_class restClass c = Spec.id_char c.
Proof. by_all_bytes c. Qed.

Lemma closure_nil (n : nat) (step : pos -> list pos) : closure n step [] = [].
Proof. induction n as [| n IH]; [reflexivity | cbn; exact IH]. Qed.

(** Repeating a class and then asking for the end of the text: it
    succeeds when the remaining text is not empty, lies in the class, and
    is not longer than the number of rounds. *)
Lemma class_run_to_end (rs : list (ascii * ascii)) :
  forall (fuel n : nat) (t : string),
    nonempty (flat_map (adv tailPattern)
                       (closure fuel (adv (Class rs)) [(n, t)]))
    = match t with
      | EmptyString => false
      | String _ _ =>
          (Spec.all_chars (in_class rs) t && Nat.leb (String.length t) fuel)%bool
      end.
Proof.
  induction fuel as [| fuel IH]; intros n t.
  - cbn. destruct t; [reflexivity | rewrite andb_false_r; reflexivity].
  - destruct t as [| a t'].
    + cbn. rewrite closure_nil. reflexivity.
    + cbn [closure flat_map adv snd fst]. rewrite app_nil_r.
      destruct (in_class rs a) eqn:Ha.
      * cbn [app flat_map]. specialize (IH (S n) t').
        destruct t' as [| a' t''].
        -- cbn. rewrite Ha. reflexivity.
        -- cbn [adv tailPattern flat_map snd app] in *.
           rewrite IH. cbn [Spec.all_chars String.length Nat.leb].
           rewrite Ha. reflexivity.
      * rewrite closure_nil. cbn. rewrite Ha. reflexivity.
Qed.
(** [^] only holds at the beginning of the text. *)
Lemma no_match_after_start (s : string) :
  forall n : nat,
    existsb (fun p => nonempty (adv validPattern p)) (suffixes (S n) s) = false.
Proof.
  induction s as [| c s IH]; intros n; cbn; [reflexivity | apply IH].
Qed.

Lemma adv_validPattern_start (c : ascii) (rest : string) :
  adv validPattern (0%nat, String c rest) =
    if in_class firstClass c
    then flat_map (adv tailPattern)
           (closure (S (String.length rest)) (adv (Class restClass))
                    [(1%nat, rest)])
    else [].
Proof.
  unfold validPattern. cbn [adv flat_map fst snd Nat.eqb]. rewrite app_nil_r.
  destruct (in_class firstClass c); [| reflexivity].
  cbn [flat_map]. rewrite app_nil_r. reflexivity.
Qed.

Lemma all_chars_ext (p q : ascii -> bool) (s : string) :
  (forall c, p c = q c) -> Spec.all_chars p s = Spec.all_chars q s.
Proof.
  intros H. induction s as [| c s IH]; cbn; [reflexivity |].
  rewrite H, IH. reflexivity.
Qed.

(** The compiled pattern accepts exactly the identifiers the
    specification describes. *)
Lemma MatchString_validPattern (id : string) :
  MatchString validPattern id = Spec.well_formed_id id.
Proof.
  unfold MatchString. destruct id as [| c rest]; [reflexivity |].
  cbn [suffixes existsb]. rewrite no_match_after_start, orb_false_r.
  rewrite adv_validPattern_start, in_firstClass. unfold Spec.well_formed_id.
  destruct (Spec.alphanumeric c); [| reflexivity].
  rewrite class_run_to_end. cbn [andb].
  destruct rest as [| a rest']; [reflexivity |].
  assert (Hle : Nat.leb (String.length (String a rest')) (S (String.length (String a rest'))) = true)
    by (apply Nat.leb_le; lia).
  rewrite Hle, andb_true_r.
  cbn [String.eqb negb andb].
  apply all_chars_ext, in_restClass.
Qed.

Lemma well_formed_length (id : string) :
  Spec.well_formed_id id = true -> (2 <= String.length id)%nat.
Proof.
  destruct id as [| c [| a rest]]; cbn; intros H.
  - discriminate.
  - rewrite andb_false_r in H. discriminate.
  - lia.
Qed.

Lemma VerifyContainerID_eq (id : string) :
  VerifyContainerID id =
    if Spec.well_formed_id id then None
    else Some (if String.eqb id "" then errBlankID else errInvalidID).
Proof.
  unfold VerifyContainerID. rewrite MustCompile_validCIDRegex.
  fold validPattern. rewrite MatchString_validPattern.
  destruct id as [| c rest]; [reflexivity |].
  cbn [String.eqb]. destruct (Spec.well_formed_id (String c rest)); reflexivity.
Qed.

Lemma VerifyContainerID_kind (id : string) (e : error) :
  VerifyContainerID id = Some e -> Spec.InvalidIdentifier e.
Proof.
  rewrite VerifyContainerID_eq.
  destruct (Spec.well_formed_id id); [discriminate |].
  intros H. injection H as <-.
  destruct (String.eqb id ""); [left | right]; reflexivity.
Qed.

(** ** C2 *)

(** C2: [VerifyContainerID] returns no error exactly for the identifiers
    that match the pattern of the specification (an alphanumeric
    character followed by one or more of alphanumerics, [_], [.], [-]);
    such an identifier has at least two characters.  Every other
    identifier is refused with one of the two errors of the kind
    [InvalidIdentifier]: the empty string, every string that starts with a
    character that is not alphanumeric, every string of one character.
    The function takes the identifier and nothing else: no state is read
    or written. *)
Theorem VerifyContainerID_spec :
  (forall id : string,
      VerifyContainerID id = None <-> Spec.well_formed_id id = true)
  /\ (forall id : string,
         VerifyContainerID id = None -> (2 <= String.length id)%nat)
  /\ (forall (id : string) (e : error),
         VerifyContainerID id = Some e -> Spec.InvalidIdentifier e)
  /\ VerifyContainerID "" = Some errBlankID
  /\ (forall (c : ascii) (rest : string),
         Spec.alphanumeric c = false ->
         VerifyContainerID (String c rest) = Some errInvalidID)
  /\ (forall c : ascii, VerifyContainerID (String c "") = Some errInvalidID).
Proof.
  assert (Hiff : forall id : string,
             VerifyContainerID id = None <-> Spec.well_formed_id id = true).
  { intros id. rewrite VerifyContainerID_eq.
    destruct (Spec.well_formed_id id); split; intros H;
      try reflexivity; discriminate. }
  split; [exact Hiff |]. split; [| split; [| split; [| split]]].
  - intros id H. apply well_formed_length, Hiff, H.
  - exact VerifyContainerID_kind.
  - reflexivity.
  - intros c rest Hc. rewrite VerifyContainerID_eq.
    cbn [Spec.well_formed_id String.eqb]. rewrite Hc. reflexivity.
  - intros c. rewrite VerifyContainerID_eq.
    cbn [Spec.well_formed_id String.eqb negb]. rewrite andb_false_r. reflexivity.
Qed.

End ValidatorFacts.

(** * Properties of the device commands *)

Module ClientFacts.

Import Shimclient Containerdshim Cli Katautils.

Section Commands.

Variable defaultTimeout : Z.
Variable DeviceUrl : string.
Variable shim : list Call -> Call -> string * option error.

Local Notation "'list_'" := (listDeviceAction defaultTimeout DeviceUrl shim).
Local Notation "'attach_'" := (attachDeviceAction defaultTimeout DeviceUrl shim).
Local Notation "'detach_'" := (detachDeviceAction defaultTimeout DeviceUrl shim).

Lemma list_invalid (w : World) (e : error) :
  VerifyContainerID (sandboxID w) = Some e -> list_ w = (Some e, w).
Proof.
  intros H. unfold listDeviceAction, bind, get_sandboxID. rewrite H. reflexivity.
Qed.

Lemma attach_invalid (w : World) (e : error) :
  VerifyContainerID (sandboxID w) = Some e -> attach_ w = (Some e, w).
Proof.
  intros H. unfold attachDeviceAction, bind, get_sandboxID. rewrite H. reflexivity.
Qed.

Lemma detach_invalid (w : World) (e : error) :
  VerifyContainerID (sandboxID w) = Some e -> detach_ w = (Some e, w).
Proof.
  intros H. unfold detachDeviceAction, bind, get_sandboxID. rewrite H. reflexivity.
Qed.

Lemma list_valid (w : World) :
  VerifyContainerID (sandboxID w) = None ->
  let c := DoGet (sandboxID w) defaultTimeout DeviceUrl in
  calls (snd (list_ w)) = (calls w ++ [c])%list.
Proof.
  intros H c. unfold listDeviceAction, bind, get_sandboxID. rewrite H.
  unfold shimclient_DoGet, invoke. fold c.
  destruct (shim (calls w) c) as [body [err |]]; reflexivity.
Qed.

Lemma attach_valid (w : World) :
  VerifyContainerID (sandboxID w) = None ->
  let c := DoPut (sandboxID w) (int64 (defaultTimeout * 10)) DeviceUrl
                 "application/json"
                 (fst (Json.Marshal {| DevicePath := devPath w |})) in
  attach_ w = (snd (shim (calls w) c), record c w).
Proof.
  intros H c. unfold attachDeviceAction, bind, get_sandboxID. rewrite H.
  reflexivity.
Qed.

Lemma detach_valid (w : World) :
  VerifyContainerID (sandboxID w) = None ->
  let c := DoDelete (sandboxID w) (int64 (defaultTimeout * 10)) DeviceUrl
                    "application/json"
                    (fst (Json.Marshal {| DevicePath := devPath w |})) in
  detach_ w = (snd (shim (calls w) c), record c w).
Proof.
  intros H c. unfold detachDeviceAction, bind, get_sandboxID. rewrite H.
  reflexivity.
Qed.

(** ** C6 *)

(** C6: when the sandbox identifier fails validation, each of the list,
    attach and detach actions returns the validation error, which is of
    the kind [InvalidIdentifier], and leaves the world as it found it:
    no call to [DoGet], [DoPut] or [DoDelete] has been recorded. *)
Theorem invalid_id_no_network (w : World) (e : error) :
  VerifyContainerID (sandboxID w) = Some e ->
  Spec.InvalidIdentifier e
  /\ list_ w = (Some e, w)
  /\ attach_ w = (Some e, w)
  /\ detach_ w = (Some e, w)
  /\ calls (snd (list_ w)) = calls w
  /\ calls (snd (attach_ w)) = calls w
  /\ calls (snd (detach_ w)) = calls w.
Proof.
  intros H.
  split; [exact (ValidatorFacts.VerifyContainerID_kind _ _ H) |].
  rewrite (list_invalid w e H), (attach_invalid w e H), (detach_invalid w e H).
  repeat split.
Qed.

(** ** C7 *)

(** C7: with a valid identifier, list makes one call with the timeout
    [defaultTimeout], attach and detach make one call each with the timeout
    [defaultTimeout*10]; as the tenfold value is a [time.Duration] (it fits
    in 64 bits), the timeout of attach and of detach is exactly ten times
    the timeout of list. *)
Theorem attach_timeout_tenfold (w : World) :
  VerifyContainerID (sandboxID w) = None ->
  - 2 ^ 63 <= defaultTimeout * 10 < 2 ^ 63 ->
  exists cl ca cd : Call,
    calls (snd (list_ w)) = (calls w ++ [cl])%list
    /\ calls (snd (attach_ w)) = (calls w ++ [ca])%list
    /\ calls (snd (detach_ w)) = (calls w ++ [cd])%list
    /\ timeout_of cl = defaultTimeout
    /\ timeout_of ca = 10 * timeout_of cl
    /\ timeout_of cd = 10 * timeout_of cl.
Proof.
  intros Hv Hr.
  assert (Ht : int64 (defaultTimeout * 10) = 10 * defaultTimeout).
  { unfold int64. rewrite Z.mod_small; lia. }
  eexists. eexists. eexists.
  split; [exact (list_valid w Hv) |].
  split; [rewrite (attach_valid w Hv); reflexivity |].
  split; [rewrite (detach_valid w Hv); reflexivity |].
  cbn [timeout_of]. rewrite Ht. repeat split.
Qed.

(** ** C9 *)

(** C9: detach mirrors attach.  For an identifier that fails validation
    both return the validation error and make no call.  Otherwise each
    makes exactly one call, [DoPut] for attach and [DoDelete] for detach,
    and the two calls carry the same sandbox identifier, the same timeout
    [defaultTimeout*10], the same address [DeviceUrl], the same content type
    and the same payload, the serialized request built from the device
    path; each returns what the shim answers to its call. *)
Theorem detach_mirrors_attach (w : World) :
  match VerifyContainerID (sandboxID w) with
  | Some e => attach_ w = (Some e, w) /\ detach_ w = (Some e, w)
  | None =>
      exists ca cd : Call,
        attach_ w = (snd (shim (calls w) ca), record ca w)
        /\ detach_ w = (snd (shim (calls w) cd), record cd w)
        /\ verb ca = PUT /\ verb cd = DELETE
        /\ target ca = sandboxID w /\ target cd = sandboxID w
        /\ timeout_of ca = int64 (defaultTimeout * 10)
        /\ timeout_of cd = timeout_of ca
        /\ url_of ca = DeviceUrl /\ url_of cd = DeviceUrl
        /\ contentType_of ca = Some "application/json"
        /\ contentType_of cd = contentType_of ca
        /\ payload_of ca = Some (fst (Json.Marshal {| DevicePath := devPath w |}))
        /\ payload_of cd = payload_of ca
  end.
Proof.
  destruct (VerifyContainerID (sandboxID w)) as [e |] eqn:Hv.
  - split; [exact (attach_invalid w e Hv) | exact (detach_invalid w e Hv)].
  - eexists. eexists.
    split; [exact (attach_valid w Hv) |].
    split; [exact (detach_valid w Hv) |].
    cbn. repeat split.
Qed.

End Commands.

Lemma invalid_id_no_network_witness :
  listDeviceAction 3000000000 "/device" Example.quiet (mkWorld "" "/dev/sdb" [] "")
  = (Some errBlankID, mkWorld "" "/dev/sdb" [] "")
  /\ attachDeviceAction 3000000000 "/device" Example.quiet (mkWorld "" "/dev/sdb" [] "")
     = (Some errBlankID, mkWorld "" "/dev/sdb" [] "")
  /\ detachDeviceAction 3000000000 "/device" Example.quiet (mkWorld "" "/dev/sdb" [] "")
     = (Some errBlankID, mkWorld "" "/dev/sdb" [] "").
Proof.
  destruct (invalid_id_no_network 3000000000 "/device" Example.quiet
              (mkWorld "" "/dev/sdb" [] "") errBlankID eq_refl)
    as (_ & Hl & Ha & Hd & _).
  exact (conj Hl (conj Ha Hd)).
Defined.

Lemma attach_timeout_tenfold_witness :
  exists cl ca cd : Call,
    calls (snd (listDeviceAction 3000000000 "/device" Example.quiet
                  (mkWorld "abc-1" "/dev/sdb" [] ""))) = [cl]
    /\ calls (snd (attachDeviceAction 3000000000 "/device" Example.quiet
                     (mkWorld "abc-1" "/dev/sdb" [] ""))) = [ca]
    /\ calls (snd (detachDeviceAction 3000000000 "/device" Example.quiet
                     (mkWorld "abc-1" "/dev/sdb" [] ""))) = [cd]
    /\ timeout_of cl = 3000000000
    /\ timeout_of ca = 30000000000
    /\ timeout_of cd = 30000000000.
Proof.
  assert (Hv : VerifyContainerID "abc-1" = None) by (vm_compute; reflexivity).
  assert (Hr : - 2 ^ 63 <= 3000000000 * 10 < 2 ^ 63) by lia.
  destruct (attach_timeout_tenfold 3000000000 "/device" Example.quiet
              (mkWorld "abc-1" "/dev/sdb" [] "") Hv Hr)
    as (cl & ca & cd & Hl & Ha & Hd & Tl & Ta & Td).
  exists cl, ca, cd. rewrite Tl in Ta, Td.
  repeat split; assumption.
Defined.

End ClientFacts.

(** * Properties of the UTF-8 decoder and encoder *)

Module Utf8Facts.

Import Utf8 Utf8Cases.

(** Division and remainder by constants are left to [lia]. *)
Ltac Zify.zify_post_hook ::= Z.to_euclidean_division_equations.

(** *** Bit operations as arithmetic *)

Lemma land_zero_split (a b k : Z) :
  0 <= k -> 0 <= b < 2 ^ k -> a mod 2 ^ k = 0 -> Z.land a b = 0.
Proof.
  intros Hk Hb Ha. apply Z.bits_inj'. intros n Hn.
  rewrite Z.land_spec, Z.bits_0.
  destruct (Z.lt_ge_cases n k) as [Hlt | Hge].
  - assert (E : a = a / 2 ^ k * 2 ^ k).
    { pose proof (Z.div_mod a (2 ^ k)) as D.
      assert (2 ^ k <> 0) by (apply Z.pow_nonzero; lia).
      rewrite Ha in D. rewrite Z.mul_comm. rewrite Z.add_0_r in D. apply D. assumption. }
    rewrite E, Z.mul_pow2_bits_low by assumption. reflexivity.
  - rewrite <- (Z.mod_small b (2 ^ k)) by assumption.
    rewrite Z.mod_pow2_bits_high by lia. apply andb_false_r.
Qed.

Lemma lor_add (a b k : Z) :
  0 <= k -> 0 <= b < 2 ^ k -> a mod 2 ^ k = 0 -> Z.lor a b = a + b.
Proof.
  intros Hk Hb Ha. pose proof (Z.add_lor_land a b) as H.
  rewrite (land_zero_split a b k Hk Hb Ha) in H. lia.
Qed.

Lemma land_maskx (v : Z) : Z.land v maskx = v mod 64.
Proof. change maskx with (Z.ones 6). rewrite Z.land_ones by lia. reflexivity. Qed.
Lemma land_mask2 (v : Z) : Z.land v mask2 = v mod 32.
Proof. change mask2 with (Z.ones 5). rewrite Z.land_ones by lia. reflexivity. Qed.
Lemma land_mask3 (v : Z) : Z.land v mask3 = v mod 16.
Proof. change mask3 with (Z.ones 4). rewrite Z.land_ones by lia. reflexivity. Qed.
Lemma land_mask4 (v : Z) : Z.land v mask4 = v mod 8.
Proof. change mask4 with (Z.ones 3). rewrite Z.land_ones by lia. reflexivity. Qed.

Lemma rune2_eq (s0 s1 : Z) :
  0xC0 <= s0 <= 0xDF -> 0x80 <= s1 <= 0xBF ->
  Z.lor (Z.shiftl (Z.land s0 mask2) 6) (Z.land s1 maskx)
  = (s0 - 0xC0) * 64 + (s1 - 0x80).
Proof.
  intros H0 H1. rewrite land_mask2, land_maskx, Z.shiftl_mul_pow2 by lia.
  rewrite (lor_add _ _ 6); lia.
Qed.

Lemma rune3_eq (s0 s1 s2 : Z) :
  0xE0 <= s0 <= 0xEF -> 0x80 <= s1 <= 0xBF -> 0x80 <= s2 <= 0xBF ->
  Z.lor (Z.lor (Z.shiftl (Z.land s0 mask3) 12) (Z.shiftl (Z.land s1 maskx) 6))
        (Z.land s2 maskx)
  = (s0 - 0xE0) * 4096 + (s1 - 0x80) * 64 + (s2 - 0x80).
Proof.
  intros H0 H1 H2. rewrite land_mask3, !land_maskx, !Z.shiftl_mul_pow2 by lia.
  rewrite (lor_add (s0 mod 16 * 2 ^ 12) _ 12) by lia.
  rewrite (lor_add _ _ 6); lia.
Qed.

Lemma rune4_eq (s0 s1 s2 s3 : Z) :
  0xF0 <= s0 <= 0xF7 -> 0x80 <= s1 <= 0xBF -> 0x80 <= s2 <= 0xBF ->
  0x80 <= s3 <= 0xBF ->
  Z.lor (Z.lor (Z.lor (Z.shiftl (Z.land s0 mask4) 18)
                      (Z.shiftl (Z.land s1 maskx) 12))
               (Z.shiftl (Z.land s2 maskx) 6))
        (Z.land s3 maskx)
  = (s0 - 0xF0) * 262144 + (s1 - 0x80) * 4096 + (s2 - 0x80) * 64 + (s3 - 0x80).
Proof.
  intros H0 H1 H2 H3. rewrite land_mask4, !land_maskx, !Z.shiftl_mul_pow2 by lia.
  rewrite (lor_add (s0 mod 8 * 2 ^ 18) _ 18) by lia.
  rewrite (lor_add _ (s2 mod 64 * 2 ^ 6) 12) by lia.
  rewrite (lor_add _ _ 6); lia.
Qed.

(** *** [EncodeRune] on the value of a well-formed sequence *)

Lemma byteZ_range (a : ascii) : 0 <= byteZ a < 256.
Proof.
  unfold byteZ. pose proof (N_ascii_bounded a). lia.
Qed.

Lemma byte_byteZ (a : ascii) : byte (byteZ a) = a.
Proof.
  unfold byte. rewrite Z.mod_small by apply byteZ_range.
  unfold byteZ. rewrite N2Z.id. apply ascii_N_embedding.
Qed.

Lemma byte_eq (a : ascii) (z : Z) : z = byteZ a -> byte z = a.
Proof. intros ->. apply byte_byteZ. Qed.

Lemma uint32_small (z : Z) : 0 <= z < 2 ^ 32 -> uint32 z = z.
Proof. intros H. unfold uint32. apply Z.mod_small. exact H. Qed.

Lemma cont_byte (v s : Z) :
  0x80 <= s <= 0xBF -> v mod 64 = s - 0x80 -> Z.lor tx (Z.land v maskx) = s.
Proof.
  intros Hs Hv. rewrite land_maskx. unfold tx. rewrite (lor_add _ _ 6); lia.
Qed.

Lemma EncodeRune2 (a0 a1 : ascii) :
  0xC2 <= byteZ a0 <= 0xDF -> 0x80 <= byteZ a1 <= 0xBF ->
  EncodeRune ((byteZ a0 - 0xC0) * 64 + (byteZ a1 - 0x80))
  = String a0 (String a1 EmptyString).
Proof.
  intros H0 H1. set (c := (byteZ a0 - 0xC0) * 64 + (byteZ a1 - 0x80)).
  assert (Hc : 0x80 <= c <= 0x7FF) by (unfold c; lia).
  unfold EncodeRune. rewrite uint32_small by lia.
  destruct (Z.leb_spec c 0x7F); [lia |].
  destruct (Z.leb_spec c 0x7FF); [| lia].
  f_equal; [| f_equal]; apply byte_eq.
  - rewrite Z.shiftr_div_pow2 by lia. unfold t2.
    rewrite (lor_add _ _ 6); unfold c; lia.
  - apply cont_byte; unfold c; lia.
Qed.

Lemma EncodeRune3 (a0 a1 a2 : ascii) :
  0xE0 <= byteZ a0 <= 0xEF -> 0x80 <= byteZ a1 <= 0xBF -> 0x80 <= byteZ a2 <= 0xBF ->
  (byteZ a0 = 0xE0 -> 0xA0 <= byteZ a1) ->
  (byteZ a0 = 0xED -> byteZ a1 <= 0x9F) ->
  EncodeRune ((byteZ a0 - 0xE0) * 4096 + (byteZ a1 - 0x80) * 64 + (byteZ a2 - 0x80))
  = String a0 (String a1 (String a2 EmptyString)).
Proof.
  intros H0 H1 H2 Hlo Hsur.
  set (c := (byteZ a0 - 0xE0) * 4096 + (byteZ a1 - 0x80) * 64 + (byteZ a2 - 0x80)).
  assert (Hc : 0x800 <= c <= 0xFFFF) by (unfold c; lia).
  assert (Hs : c < 0xD800 \/ 0xDFFF < c) by (unfold c; lia).
  unfold EncodeRune. rewrite uint32_small by lia.
  destruct (Z.leb_spec c 0x7F); [lia |].
  destruct (Z.leb_spec c 0x7FF); [lia |].
  unfold MaxRune, surrogateMin, surrogateMax.
  destruct (Z.ltb_spec 0x10FFFF c); [lia |].
  replace ((0xD800 <=? c) && (c <=? 0xDFFF))%bool with false
    by (symmetry; apply andb_false_iff; destruct Hs; [left; apply Z.leb_gt | right; apply Z.leb_gt]; lia).
  cbn [orb]. destruct (Z.leb_spec c 0xFFFF); [| lia].
  unfold encode3. f_equal; [| f_equal; [| f_equal]]; apply byte_eq.
  - rewrite Z.shiftr_div_pow2 by lia. unfold t3.
    rewrite (lor_add _ _ 4); unfold c; lia.
  - apply cont_byte; [lia |]. rewrite Z.shiftr_div_pow2 by lia. unfold c; lia.
  - apply cont_byte; unfold c; lia.
Qed.

Lemma EncodeRune4 (a0 a1 a2 a3 : ascii) :
  0xF0 <= byteZ a0 <= 0xF4 -> 0x80 <= byteZ a1 <= 0xBF ->
  0x80 <= byteZ a2 <= 0xBF -> 0x80 <= byteZ a3 <= 0xBF ->
  (byteZ a0 = 0xF0 -> 0x90 <= byteZ a1) ->
  (byteZ a0 = 0xF4 -> byteZ a1 <= 0x8F) ->
  EncodeRune ((byteZ a0 - 0xF0) * 262144 + (byteZ a1 - 0x80) * 4096
              + (byteZ a2 - 0x80) * 64 + (byteZ a3 - 0x80))
  = String a0 (String a1 (String a2 (String a3 EmptyString))).
Proof.
  intros H0 H1 H2 H3 Hlo Hhi.
  set (c := (byteZ a0 - 0xF0) * 262144 + (byteZ a1 - 0x80) * 4096
            + (byteZ a2 - 0x80) * 64 + (byteZ a3 - 0x80)).
  assert (Hc : 0x10000 <= c <= 0x10FFFF) by (unfold c; lia).
  unfold EncodeRune. rewrite uint32_small by lia.
  destruct (Z.leb_spec c 0x7F); [lia |].
  destruct (Z.leb_spec c 0x7FF); [lia |].
  unfold MaxRune, surrogateMin, surrogateMax.
  destruct (Z.ltb_spec 0x10FFFF c); [lia |].
  destruct (Z.leb_spec c 0xDFFF); [lia |]. rewrite andb_false_r. cbn [orb].
  destruct (Z.leb_spec c 0xFFFF); [lia |].
  f_equal; [| f_equal; [| f_equal; [| f_equal]]]; apply byte_eq.
  - rewrite Z.shiftr_div_pow2 by lia. unfold t4.
    rewrite (lor_add _ _ 3); unfold c; lia.
  - apply cont_byte; [lia |]. rewrite Z.shiftr_div_pow2 by lia. unfold c; lia.
  - apply cont_byte; [lia |]. rewrite Z.shiftr_div_pow2 by lia. unfold c; lia.
  - apply cont_byte; unfold c; lia.
Qed.

(** *** [DecodeRuneInString] by cases on the text *)

Lemma first_size (b : Z) :
  (first b >=? as_) = false -> 2 <= Z.land (first b) 7 <= 4.
Proof.
  unfold first.
  repeat match goal with
         | |- context [if ?c then _ else _] => destruct c
         end; vm_compute; intros H; try discriminate; split; discriminate.
Qed.

Lemma DecodeRuneInString_form (a0 : ascii) (t0 : string) :
  DecodeRuneInString (String a0 t0) = decode_form a0 t0.
Proof.
  unfold DecodeRuneInString, decode_form, decode_tail, err1.
  change (idx (String a0 t0) 0) with (byteZ a0).
  set (x := first (byteZ a0)).
  assert (Hn : (Z.of_nat (String.length (String a0 t0)) <? 1) = false)
    by (apply Z.ltb_ge; cbn [String.length]; lia).
  rewrite Hn. clear Hn.
  destruct (x >=? as_) eqn:Hx; [reflexivity |].
  pose proof (first_size (byteZ a0) Hx) as Hsz. fold x in Hsz.
  set (sz := Z.land x 7) in *.
  set (accept := acceptRanges (Z.shiftr x 4)).
  destruct t0 as [| a1 t1].
  { destruct (Z.ltb_spec (Z.of_nat (String.length (String a0 ""))) sz) as [H | H];
      [reflexivity | cbn [String.length] in H; lia]. }
  change (idx (String a0 (String a1 t1)) 1) with (byteZ a1).
  destruct (Z.ltb_spec (Z.of_nat (String.length (String a0 (String a1 t1)))) sz) as [H | H].
  { cbn [String.length] in H.
    destruct (bad (fst accept) (snd accept) (byteZ a1)); [reflexivity |].
    destruct (Z.leb_spec sz 2); [lia |].
    destruct t1 as [| a2 t2]; [reflexivity |].
    destruct (bad locb hicb (byteZ a2)); [reflexivity |].
    destruct (Z.leb_spec sz 3); [cbn [String.length] in H; lia |].
    destruct t2 as [| a3 t3]; [reflexivity |].
    cbn [String.length] in H. lia. }
  fold (bad (fst accept) (snd accept) (byteZ a1)).
  destruct (bad (fst accept) (snd accept) (byteZ a1)); [reflexivity |].
  destruct (Z.leb_spec sz 2); [reflexivity |].
  destruct t1 as [| a2 t2]; [cbn [String.length] in H; lia |].
  change (idx (String a0 (String a1 (String a2 t2))) 2) with (byteZ a2).
  fold (bad locb hicb (byteZ a2)).
  destruct (bad locb hicb (byteZ a2)); [reflexivity |].
  destruct (Z.leb_spec sz 3); [reflexivity |].
  destruct t2 as [| a3 t3]; [cbn [String.length] in H; lia |].
  change (idx (String a0 (String a1 (String a2 (String a3 t3)))) 3) with (byteZ a3).
  fold (bad locb hicb (byteZ a3)).
  destruct (bad locb hicb (byteZ a3)); reflexivity.
Qed.

Lemma bad_false (lo hi s : Z) : bad lo hi s = false -> lo <= s <= hi.
Proof.
  unfold bad. intros H. apply orb_false_iff in H. destruct H as [H1 H2].
  apply Z.ltb_ge in H1. apply Z.ltb_ge in H2. lia.
Qed.

(** A successful decoding only reads the bytes it consumes. *)
Lemma decode_form_tail (a0 : ascii) (t0 : string) :
  is_error (decode_form a0 t0) = false ->
  forall tail : string,
    decode_form a0 (substring 0 (Nat.pred (snd (decode_form a0 t0))) t0 ++ tail)
    = decode_form a0 t0.
Proof.
  unfold decode_form, decode_tail, err1.
  destruct (first (byteZ a0) >=? as_); [reflexivity |].
  destruct t0 as [| a1 t1]; [discriminate |].
  destruct (bad _ _ (byteZ a1)) eqn:B1; [discriminate |].
  destruct (Z.land (first (byteZ a0)) 7 <=? 2) eqn:S2.
  { intros _ tail. cbn [snd Nat.pred substring append]. rewrite ?B1, ?S2. reflexivity. }
  destruct t1 as [| a2 t2]; [discriminate |].
  destruct (bad locb hicb (byteZ a2)) eqn:B2; [discriminate |].
  destruct (Z.land (first (byteZ a0)) 7 <=? 3) eqn:S3.
  { intros _ tail. cbn [snd Nat.pred substring append]. rewrite ?B1, ?S2, ?B2, ?S3. reflexivity. }
  destruct t2 as [| a3 t3]; [discriminate |].
  destruct (bad locb hicb (byteZ a3)) eqn:B3; [discriminate |].
  intros _ tail. cbn [snd Nat.pred substring append]. rewrite ?B1, ?S2, ?B2, ?S3, ?B3. reflexivity.
Qed.

Lemma first_cases (b : Z) :
  0x80 <= b ->
  first b = xx
  \/ (0xC2 <= b <= 0xDF /\ first b = 0x02)
  \/ (b = 0xE0 /\ first b = 0x13)
  \/ (0xE1 <= b <= 0xEF /\ b <> 0xED /\ first b = 0x03)
  \/ (b = 0xED /\ first b = 0x23)
  \/ (b = 0xF0 /\ first b = 0x34)
  \/ (0xF1 <= b <= 0xF3 /\ first b = 0x04)
  \/ (b = 0xF4 /\ first b = 0x44).
Proof.
  intros Hb. unfold first.
  destruct (Z.ltb_spec b 0x80); [lia |].
  destruct (Z.ltb_spec b 0xC2); [left; reflexivity |].
  destruct (Z.ltb_spec b 0xE0); [right; left; split; [lia | reflexivity] |].
  destruct (Z.eqb_spec b 0xE0); [right; right; left; split; [lia | reflexivity] |].
  destruct (Z.ltb_spec b 0xED); [right; right; right; left; repeat split; lia |].
  destruct (Z.eqb_spec b 0xED); [do 4 right; left; split; [lia | reflexivity] |].
  destruct (Z.ltb_spec b 0xF0); [right; right; right; left; repeat split; lia |].
  destruct (Z.eqb_spec b 0xF0); [do 5 right; left; split; [lia | reflexivity] |].
  destruct (Z.ltb_spec b 0xF4); [do 6 right; left; split; [lia | reflexivity] |].
  destruct (Z.eqb_spec b 0xF4); [do 7 right; split; [lia | reflexivity] |].
  left; reflexivity.
Qed.

Lemma decode_tail_2 (lo hi s0 : Z) (t0 : string) :
  decode_tail 2 lo hi s0 t0 =
    match t0 with
    | EmptyString => err1
    | String a1 _ =>
        if bad lo hi (byteZ a1) then err1 else (rune2 s0 (byteZ a1), 2%nat)
    end.
Proof. destruct t0; reflexivity. Qed.

Lemma decode_tail_3 (lo hi s0 : Z) (t0 : string) :
  decode_tail 3 lo hi s0 t0 =
    match t0 with
    | String a1 (String a2 _) =>
        if bad lo hi (byteZ a1) then err1
        else if bad locb hicb (byteZ a2) then err1
        else (rune3 s0 (byteZ a1) (byteZ a2), 3%nat)
    | _ => err1
    end.
Proof.
  destruct t0 as [| a1 [| a2 t2]]; try reflexivity.
  cbn. destruct (bad lo hi (byteZ a1)); reflexivity.
Qed.

Lemma decode_tail_4 (lo hi s0 : Z) (t0 : string) :
  decode_tail 4 lo hi s0 t0 =
    match t0 with
    | String a1 (String a2 (String a3 _)) =>
        if bad lo hi (byteZ a1) then err1
        else if bad locb hicb (byteZ a2) then err1
        else if bad locb hicb (byteZ a3) then err1
        else (rune4 s0 (byteZ a1) (byteZ a2) (byteZ a3), 4%nat)
    | _ => err1
    end.
Proof.
  destruct t0 as [| a1 [| a2 [| a3 t3]]]; try reflexivity.
  - cbn. destruct (bad lo hi (byteZ a1)); reflexivity.
  - cbn. destruct (bad lo hi (byteZ a1)); [reflexivity |].
    destruct (bad locb hicb (byteZ a2)); reflexivity.
Qed.

Lemma substring_0_0 (s : string) : substring 0 0 s = EmptyString.
Proof. destruct s; reflexivity. Qed.

Lemma is_error_err1 : is_error err1 = true.
Proof. reflexivity. Qed.

(** What a successful decoding of a sequence that starts with a byte above
    [0x7F] returns is a rune whose encoding is the bytes consumed. *)
Lemma encode_decoded (a0 : ascii) (t0 : string) :
  0x80 <= byteZ a0 ->
  is_error (decode_form a0 t0) = false ->
  exists r : string,
    Utf8.after (snd (decode_form a0 t0)) (String a0 t0) = Some r
    /\ String a0 t0 = EncodeRune (fst (decode_form a0 t0)) ++ r
    /\ substring 0 (snd (decode_form a0 t0)) (String a0 t0)
       = EncodeRune (fst (decode_form a0 t0)).
Proof.
  intros H0 Hok. pose proof (byteZ_range a0) as R0.
  assert (two : forall lo hi,
             decode_form a0 t0 = decode_tail 2 lo hi (byteZ a0) t0 ->
             0xC2 <= byteZ a0 <= 0xDF -> 0x80 <= lo -> hi <= 0xBF ->
             exists r : string,
               Utf8.after (snd (decode_form a0 t0)) (String a0 t0) = Some r
               /\ String a0 t0 = EncodeRune (fst (decode_form a0 t0)) ++ r
               /\ substring 0 (snd (decode_form a0 t0)) (String a0 t0)
                  = EncodeRune (fst (decode_form a0 t0))).
  { intros lo hi E Hr Hlo Hhi. rewrite E in Hok |- *. rewrite decode_tail_2 in Hok |- *.
    destruct t0 as [| a1 t1]; [discriminate |].
    destruct (bad lo hi (byteZ a1)) eqn:B1; [discriminate |].
    apply bad_false in B1. cbn [fst snd Utf8.after substring].
    unfold rune2. rewrite rune2_eq by lia. rewrite EncodeRune2 by lia.
    exists t1. rewrite substring_0_0. split; [reflexivity | split; reflexivity]. }
  assert (three : forall lo hi,
             decode_form a0 t0 = decode_tail 3 lo hi (byteZ a0) t0 ->
             0xE0 <= byteZ a0 <= 0xEF -> 0x80 <= lo -> hi <= 0xBF ->
             (byteZ a0 = 0xE0 -> 0xA0 <= lo) -> (byteZ a0 = 0xED -> hi <= 0x9F) ->
             exists r : string,
               Utf8.after (snd (decode_form a0 t0)) (String a0 t0) = Some r
               /\ String a0 t0 = EncodeRune (fst (decode_form a0 t0)) ++ r
               /\ substring 0 (snd (decode_form a0 t0)) (String a0 t0)
                  = EncodeRune (fst (decode_form a0 t0))).
  { intros lo hi E Hr Hlo Hhi HE0 HED. rewrite E in Hok |- *.
    rewrite decode_tail_3 in Hok |- *.
    destruct t0 as [| a1 [| a2 t2]]; try discriminate.
    destruct (bad lo hi (byteZ a1)) eqn:B1; [discriminate |].
    destruct (bad locb hicb (byteZ a2)) eqn:B2; [discriminate |].
    apply bad_false in B1. apply bad_false in B2. unfold locb, hicb in B2.
    cbn [fst snd Utf8.after substring].
    unfold rune3. rewrite rune3_eq by lia. rewrite EncodeRune3 by lia.
    exists t2. rewrite substring_0_0. split; [reflexivity | split; reflexivity]. }
  assert (four : forall lo hi,
             decode_form a0 t0 = decode_tail 4 lo hi (byteZ a0) t0 ->
             0xF0 <= byteZ a0 <= 0xF4 -> 0x80 <= lo -> hi <= 0xBF ->
             (byteZ a0 = 0xF0 -> 0x90 <= lo) -> (byteZ a0 = 0xF4 -> hi <= 0x8F) ->
             exists r : string,
               Utf8.after (snd (decode_form a0 t0)) (String a0 t0) = Some r
               /\ String a0 t0 = EncodeRune (fst (decode_form a0 t0)) ++ r
               /\ substring 0 (snd (decode_form a0 t0)) (String a0 t0)
                  = EncodeRune (fst (decode_form a0 t0))).
  { intros lo hi E Hr Hlo Hhi HF0 HF4. rewrite E in Hok |- *.
    rewrite decode_tail_4 in Hok |- *.
    destruct t0 as [| a1 [| a2 [| a3 t3]]]; try discriminate.
    destruct (bad lo hi (byteZ a1)) eqn:B1; [discriminate |].
    destruct (bad locb hicb (byteZ a2)) eqn:B2; [discriminate |].
    destruct (bad locb hicb (byteZ a3)) eqn:B3; [discriminate |].
    apply bad_false in B1. apply bad_false in B2. apply bad_false in B3.
    unfold locb, hicb in B2, B3.
    cbn [fst snd Utf8.after substring].
    unfold rune4. rewrite rune4_eq by lia. rewrite EncodeRune4 by lia.
    exists t3. rewrite substring_0_0. split; [reflexivity | split; reflexivity]. }
  destruct (first_cases (byteZ a0) H0)
    as [Hf | [[Hr Hf] | [[Hr Hf] | [[Hr [Hn Hf]] | [[Hr Hf] | [[Hr Hf] | [[Hr Hf] | [Hr Hf]]]]]]]].
  - exfalso. unfold decode_form in Hok. rewrite Hf in Hok.
    change (xx >=? as_) with true in Hok. change (Z.testbit xx 0) with true in Hok.
    cbv iota in Hok. rewrite Z.ldiff_m1_r, Z.land_m1_r in Hok. discriminate.
  - apply (two 0x80 0xBF); try lia. unfold decode_form. rewrite Hf. reflexivity.
  - apply (three 0xA0 0xBF); try lia. unfold decode_form. rewrite Hf. reflexivity.
  - apply (three 0x80 0xBF); try lia. unfold decode_form. rewrite Hf. reflexivity.
  - apply (three 0x80 0x9F); try lia. unfold decode_form. rewrite Hf. reflexivity.
  - apply (four 0x90 0xBF); try lia. unfold decode_form. rewrite Hf. reflexivity.
  - apply (four 0x80 0xBF); try lia. unfold decode_form. rewrite Hf. reflexivity.
  - apply (four 0x80 0x8F); try lia. unfold decode_form. rewrite Hf. reflexivity.
Qed.

End Utf8Facts.

(** * Properties of the JSON encoding of a device request *)

Module JsonFacts.

Import Utf8 Utf8Cases Json Containerdshim Utf8Facts.

Lemma unquote_ascii (a : ascii) (tail : string) :
  byteZ a < 0x80 ->
  unquote ((if htmlSafeSet (byteZ a) then String a EmptyString else escape_byte a)
           ++ tail)
  = prepend (String a EmptyString) (unquote tail).
Proof.
  intros H.
  destruct a as [[] [] [] [] [] [] [] []];
    try (exfalso; vm_compute in H; discriminate); reflexivity.
Qed.

Lemma append_assoc (a b c : string) : (a ++ b) ++ c = a ++ (b ++ c).
Proof. induction a as [| x a IH]; cbn; [reflexivity | rewrite IH; reflexivity]. Qed.

Lemma after_match {A : Type} (F : string -> A) (d : A)
      (size : nat) (a0 : ascii) (X r : string) :
  Utf8.after size (String a0 X) = Some r ->
  match size, X with
  | 1%nat, _ => F X
  | 2%nat, String _ r1 => F r1
  | 3%nat, String _ (String _ r2) => F r2
  | 4%nat, String _ (String _ (String _ r3)) => F r3
  | _, _ => d
  end = F r.
Proof.
  destruct size as [| [| [| [| [| n]]]]]; cbn; try discriminate.
  - intros H. injection H as <-. reflexivity.
  - destruct X as [| a1 r1]; [discriminate |]. intros H. injection H as <-. reflexivity.
  - destruct X as [| a1 [| a2 r2]]; try discriminate.
    intros H. injection H as <-. reflexivity.
  - destruct X as [| a1 [| a2 [| a3 r3]]]; try discriminate.
    intros H. injection H as <-. reflexivity.
Qed.

Lemma after_substring (size : nat) (s r tail : string) :
  Utf8.after size s = Some r ->
  Utf8.after size (substring 0 size s ++ tail) = Some tail.
Proof.
  destruct size as [| [| [| [| [| n]]]]]; cbn; try discriminate;
    destruct s as [| a0 [| a1 [| a2 [| a3 t]]]]; cbn; try discriminate;
    rewrite ?substring_0_0; reflexivity.
Qed.

Lemma substring_head (size : nat) (a0 : ascii) (t0 r : string) :
  Utf8.after size (String a0 t0) = Some r ->
  substring 0 size (String a0 t0) = String a0 (substring 0 (Nat.pred size) t0).
Proof.
  destruct size as [| n]; [cbn; discriminate | reflexivity].
Qed.

Lemma not_quote_or_backslash (a : ascii) :
  0x80 <= byteZ a -> Ascii.eqb a dq = false /\ Ascii.eqb a backslash = false.
Proof.
  intros H.
  destruct a as [[] [] [] [] [] [] [] []];
    try (exfalso; vm_compute in H; apply H; reflexivity); split; reflexivity.
Qed.

(** The decoder copies a well-formed sequence of several bytes. *)
Lemma unquote_multibyte (a0 : ascii) (t0 tail : string) :
  0x80 <= byteZ a0 ->
  is_error (DecodeRuneInString (String a0 t0)) = false ->
  unquote (substring 0 (snd (DecodeRuneInString (String a0 t0))) (String a0 t0)
           ++ tail)
  = prepend (EncodeRune (fst (DecodeRuneInString (String a0 t0)))) (unquote tail).
Proof.
  intros H0 Hok. rewrite DecodeRuneInString_form in *.
  destruct (encode_decoded a0 t0 H0 Hok) as (r & Hafter & Hs & Hsub).
  pose proof (after_substring _ _ _ tail Hafter) as Hafter'.
  rewrite (substring_head _ _ _ _ Hafter) in *.
  cbn [append] in *.
  destruct (not_quote_or_backslash a0 H0) as [Hq Hb].
  cbn [unquote]. rewrite Hq, Hb.
  destruct (Z.ltb_spec (byteZ a0) 0x20); [lia |].
  destruct (Z.ltb_spec (byteZ a0) RuneSelf); [unfold RuneSelf in *; lia |].
  rewrite DecodeRuneInString_form, (decode_form_tail a0 t0 Hok tail).
  destruct (decode_form a0 t0) as [c size] eqn:D. cbn [fst snd] in *.
  f_equal.
  exact (after_match unquote None size a0 _ tail Hafter').
Qed.

Lemma unquote_line_separator (c : Z) (tail : string) :
  c = 0x2028 \/ c = 0x2029 ->
  unquote ((String backslash "u202" ++ String (hexdigit (Z.land c 0xF)) EmptyString)
           ++ tail)
  = prepend (EncodeRune c) (unquote tail).
Proof. intros [-> | ->]; reflexivity. Qed.

Lemma decode_ascii (a0 : ascii) (t0 : string) :
  byteZ a0 < 0x80 -> DecodeRuneInString (String a0 t0) = (byteZ a0, 1%nat).
Proof.
  intros H. pose proof (byteZ_range a0) as R.
  rewrite DecodeRuneInString_form. unfold decode_form, first.
  destruct (Z.ltb_spec (byteZ a0) 0x80); [| lia].
  change (as_ >=? as_) with true. change (Z.testbit as_ 0) with false. cbv iota.
  rewrite Z.ldiff_0_r, Z.land_0_r, Z.lor_0_r. reflexivity.
Qed.

Lemma string_loop_ascii (a0 : ascii) (t0 : string) :
  byteZ a0 < 0x80 ->
  string_loop (String a0 t0)
  = (if htmlSafeSet (byteZ a0) then String a0 EmptyString else escape_byte a0)
    ++ string_loop t0.
Proof.
  intros H. cbn [string_loop]. unfold RuneSelf.
  destruct (Z.ltb_spec (byteZ a0) 0x80); [reflexivity | lia].
Qed.

Lemma string_loop_multibyte (a0 : ascii) (t0 r : string) :
  0x80 <= byteZ a0 ->
  is_error (DecodeRuneInString (String a0 t0)) = false ->
  Utf8.after (snd (DecodeRuneInString (String a0 t0))) (String a0 t0) = Some r ->
  string_loop (String a0 t0)
  = (let c := fst (DecodeRuneInString (String a0 t0)) in
     if ((c =? 0x2028) || (c =? 0x2029))%bool
     then String backslash "u202" ++ String (hexdigit (Z.land c 0xF)) EmptyString
     else substring 0 (snd (DecodeRuneInString (String a0 t0))) (String a0 t0))
    ++ string_loop r.
Proof.
  intros H Hok Hafter. cbn [string_loop]. unfold RuneSelf.
  destruct (Z.ltb_spec (byteZ a0) 0x80); [lia |].
  unfold is_error in Hok.
  destruct (DecodeRuneInString (String a0 t0)) as [c size]. cbn [fst snd] in *.
  rewrite Hok. cbv zeta.
  rewrite (after_match string_loop EmptyString size a0 t0 r Hafter). reflexivity.
Qed.

(** Reading back what the encoder wrote for a valid text. *)
Lemma unquote_string_loop (rest : string) :
  forall (fuel : nat) (s : string),
    valid_loop fuel s = true ->
    unquote (string_loop s ++ String dq rest) = Some (s, rest).
Proof.
  induction fuel as [| fuel IH]; intros s Hv.
  - destruct s; [reflexivity | discriminate].
  - destruct s as [| a0 t0]; [reflexivity |].
    cbn [valid_loop] in Hv.
    destruct (Z.lt_ge_cases (byteZ a0) 0x80) as [Hlt | Hge].
    + rewrite (decode_ascii a0 t0 Hlt) in Hv.
      destruct ((byteZ a0 =? RuneError) && Nat.eqb 1 1)%bool; [discriminate |].
      cbn [Utf8.after] in Hv.
      rewrite (string_loop_ascii a0 t0 Hlt), append_assoc, unquote_ascii by assumption.
      rewrite (IH t0 Hv). reflexivity.
    + destruct (DecodeRuneInString (String a0 t0)) as [c size] eqn:D.
      destruct ((c =? RuneError) && Nat.eqb size 1)%bool eqn:Herr; [discriminate |].
      destruct (Utf8.after size (String a0 t0)) as [r |] eqn:Hafter; [| discriminate].
      assert (Hok : is_error (DecodeRuneInString (String a0 t0)) = false)
        by (rewrite D; exact Herr).
      assert (Hafter' : Utf8.after (snd (DecodeRuneInString (String a0 t0)))
                                    (String a0 t0) = Some r)
        by (rewrite D; exact Hafter).
      rewrite (string_loop_multibyte a0 t0 r Hge Hok Hafter'), append_assoc.
      pose proof (unquote_multibyte a0 t0 (string_loop r ++ String dq rest) Hge Hok)
        as Hcopy.
      rewrite DecodeRuneInString_form in Hok.
      destruct (encode_decoded a0 t0 Hge Hok) as (r' & Hr' & Hs & Hsub).
      rewrite <- DecodeRuneInString_form in Hr', Hs, Hsub.
      rewrite Hafter' in Hr'. injection Hr' as <-.
      cbv zeta. rewrite D in *. cbn [fst snd] in *.
      destruct ((c =? 0x2028) || (c =? 0x2029))%bool eqn:Hsep.
      * rewrite unquote_line_separator, (IH r Hv).
        -- cbn [prepend]. rewrite <- Hs. reflexivity.
        -- apply orb_true_iff in Hsep. destruct Hsep as [E | E];
             apply Z.eqb_eq in E; [left | right]; exact E.
      * rewrite Hcopy, (IH r Hv). cbn [prepend]. rewrite <- Hs. reflexivity.
Qed.

Lemma string_length_append (a b : string) :
  String.length (a ++ b) = (String.length a + String.length b)%nat.
Proof. induction a as [| x a IH]; cbn; [reflexivity | rewrite IH; reflexivity]. Qed.

Lemma Marshal_value (p : string) :
  Marshal (mkDeviceRequest p)
  = ("{" ++ String dq ("device_path" ++ String dq (":"
       ++ String dq (string_loop p ++ String dq "}"))), None).
Proof.
  unfold Marshal, encode_string. cbn [DevicePath].
  change ("{" ++ String dq ("device_path" ++ String dq (":"
           ++ String dq (string_loop p ++ String dq EmptyString) ++ "}")))
    with ("{" ++ String dq ("device_path" ++ String dq (":"
           ++ String dq ((string_loop p ++ String dq EmptyString) ++ "}")))).
  rewrite append_assoc. reflexivity.
Qed.

Lemma string_lit_quote (lit : string) : string_lit (String dq lit) = unquote lit.
Proof. reflexivity. Qed.

Lemma skip_ws_quote (r : string) : skip_ws (String dq r) = String dq r.
Proof. reflexivity. Qed.

(** An object of one member. *)
Lemma members_one (fuel : nat) (lit1 lit2 key val : string) (v : DeviceRequest) :
  unquote lit1 = Some (key, String ":" (String dq lit2)) ->
  unquote lit2 = Some (val, "}") ->
  members (S fuel) (String dq lit1) v
  = Some (if String.eqb key "device_path" then mkDeviceRequest val else v,
          EmptyString).
Proof.
  intros H1 H2. cbn [members].
  rewrite skip_ws_quote, string_lit_quote, H1.
  change (skip_ws (String ":" (String dq lit2))) with (String ":" (String dq lit2)).
  change (Ascii.eqb ":" ":") with true. cbv iota.
  rewrite skip_ws_quote, string_lit_quote, H2.
  reflexivity.
Qed.

Lemma Unmarshal_object (body : string) :
  Unmarshal (String "{" (String dq body))
  = match members (S (S (String.length body))) (String dq body)
                  (mkDeviceRequest EmptyString) with
    | Some (v, rest) =>
        match skip_ws rest with
        | EmptyString => Some v
        | String _ _ => None
        end
    | None => None
    end.
Proof. reflexivity. Qed.

(** ** C8 *)

Lemma Unmarshal_Marshal (p : string) :
  ValidString p = true ->
  Unmarshal (fst (Marshal (mkDeviceRequest p))) = Some (mkDeviceRequest p).
Proof.
  intros Hv. rewrite Marshal_value. cbn [fst].
  change ("{" ++ String dq ("device_path" ++ String dq (":"
            ++ String dq (string_loop p ++ String dq "}"))))
    with (String "{" (String dq (string_loop "device_path" ++ String dq (String ":"
            (String dq (string_loop p ++ String dq "}")))))).
  rewrite Unmarshal_object.
  rewrite (members_one _ (string_loop "device_path" ++ String dq (String ":"
             (String dq (string_loop p ++ String dq "}"))))
             (string_loop p ++ String dq "}") "device_path" p).
  - reflexivity.
  - apply (unquote_string_loop _ 11). reflexivity.
  - apply (unquote_string_loop _ (String.length p)). exact Hv.
Qed.

(** C8, as amended: serializing the request built from "/dev/null" writes
    the JSON object with the single member [device_path] of value
    "/dev/null" (in the compact form, without white space), and decoding
    that text, or the same object written with a space after the colon,
    gives the request back; for every device path that is valid UTF-8,
    serializing never fails and decoding what was serialized gives the
    request back. *)
Theorem Marshal_Unmarshal_roundtrip :
  Marshal (mkDeviceRequest "/dev/null") = (Example.devNullJSON, None)
  /\ Unmarshal Example.devNullJSON = Some (mkDeviceRequest "/dev/null")
  /\ Unmarshal Example.devNullJSONSpaced = Some (mkDeviceRequest "/dev/null")
  /\ (forall p : string,
        ValidString p = true ->
        snd (Marshal (mkDeviceRequest p)) = None
        /\ Unmarshal (fst (Marshal (mkDeviceRequest p)))
           = Some (mkDeviceRequest p)).
Proof.
  split; [reflexivity |]. split; [vm_compute; reflexivity |].
  split; [vm_compute; reflexivity |].
  intros p Hv. split; [reflexivity | exact (Unmarshal_Marshal p Hv)].
Qed.

Lemma Marshal_Unmarshal_roundtrip_witness :
  ValidString "/dev/sdb" = true
  /\ Unmarshal (fst (Marshal (mkDeviceRequest "/dev/sdb")))
     = Some (mkDeviceRequest "/dev/sdb").
Proof.
  split; [reflexivity |].
  exact (proj2 (proj2 (proj2 (proj2 Marshal_Unmarshal_roundtrip)) "/dev/sdb" eq_refl)).
Defined.

(** The round trip is not the identity on every device path.  A path that
    is not valid UTF-8 does not come back: the byte [0xFF] is written as the
    escape of the replacement character and is read as the three bytes of
    U+FFFD. *)
Lemma roundtrip_invalid_utf8 :
  Unmarshal (fst (Marshal (mkDeviceRequest (String (byte 0xFF) EmptyString))))
  <> Some (mkDeviceRequest (String (byte 0xFF) EmptyString)).
Proof. vm_compute. discriminate. Qed.

(** No decoder could do better: two different paths are serialized to the
    same text. *)
Lemma Marshal_not_injective :
  Marshal (mkDeviceRequest (String (byte 0xFF) EmptyString))
  = Marshal (mkDeviceRequest (String (byte 0xFE) EmptyString))
  /\ String (byte 0xFF) EmptyString <> String (byte 0xFE) EmptyString.
Proof. split; [vm_compute; reflexivity | vm_compute; discriminate]. Qed.

End JsonFacts.

(** * Further properties of the device classifier *)

Module DevNumber.
Import Unix ClassifierFacts.

Ltac Zify.zify_post_hook ::= Z.to_euclidean_division_equations.

(** The bits [k .. k+m-1] of a number, left in place. *)
Lemma land_field (d k m : Z) :
  0 <= k -> 0 <= m ->
  Z.land d (Z.shiftl (Z.ones m) k) = (d / 2 ^ k) mod 2 ^ m * 2 ^ k.
Proof.
  intros Hk Hm. apply Z.bits_inj'. intros n Hn.
  rewrite Z.land_spec, Z.shiftl_spec by assumption.
  rewrite Z.mul_pow2_bits by assumption.
  destruct (Z.lt_ge_cases n k) as [Hlt | Hge].
  - rewrite (Z.testbit_neg_r (Z.ones m)), (Z.testbit_neg_r (_ mod _)) by lia.
    apply andb_false_r.
  - rewrite Z.testbit_mod_pow2 by assumption.
    rewrite Z.div_pow2_bits by lia.
    replace (n - k + k) with n by lia.
    destruct (Z.ltb_spec (n - k) m) as [Hin | Hout].
    + rewrite Z.ones_spec_low by lia. rewrite andb_true_r. reflexivity.
    + rewrite Z.ones_spec_high by lia. rewrite andb_false_r. reflexivity.
Qed.

Lemma Major_arith (dev : Z) :
  0 <= dev < 2 ^ 64 ->
  Unix.Major dev = (dev / 2 ^ 8) mod 2 ^ 12 + (dev / 2 ^ 44) * 2 ^ 12.
Proof.
  intros Hd. unfold Unix.Major.
  change 0x00000000000fff00 with (Z.shiftl (Z.ones 12) 8).
  change 0xfffff00000000000 with (Z.shiftl (Z.ones 20) 44).
  rewrite !land_field by lia. rewrite !Z.shiftr_div_pow2 by lia.
  unfold uint32.
  assert (E1 : (dev / 2 ^ 8) mod 2 ^ 12 * 2 ^ 8 / 2 ^ 8 = (dev / 2 ^ 8) mod 2 ^ 12)
    by (apply Z.div_mul; lia).
  assert (E2 : (dev / 2 ^ 44) mod 2 ^ 20 * 2 ^ 44 / 2 ^ 32 = (dev / 2 ^ 44) * 2 ^ 12).
  { replace ((dev / 2 ^ 44) mod 2 ^ 20) with (dev / 2 ^ 44) by (rewrite Z.mod_small; lia).
    replace (2 ^ 44) with (2 ^ 12 * 2 ^ 32) at 2 by reflexivity.
    rewrite Z.mul_assoc. apply Z.div_mul. lia. }
  rewrite E1, E2.
  rewrite (Z.mod_small ((dev / 2 ^ 8) mod 2 ^ 12)) by lia.
  rewrite (Z.mod_small (dev / 2 ^ 44 * 2 ^ 12)) by lia.
  rewrite Z.lor_comm. rewrite (Utf8Facts.lor_add _ _ 12); lia.
Qed.

Lemma Minor_arith (dev : Z) :
  0 <= dev < 2 ^ 64 ->
  Unix.Minor dev = dev mod 2 ^ 8 + ((dev / 2 ^ 20) mod 2 ^ 24) * 2 ^ 8.
Proof.
  intros Hd. unfold Unix.Minor.
  change 0x00000000000000ff with (Z.shiftl (Z.ones 8) 0).
  change 0x00000ffffff00000 with (Z.shiftl (Z.ones 24) 20).
  rewrite !land_field by lia. rewrite !Z.shiftr_div_pow2 by lia.
  unfold uint32.
  assert (E1 : (dev / 2 ^ 0) mod 2 ^ 8 * 2 ^ 0 / 2 ^ 0 = dev mod 2 ^ 8).
  { change (2 ^ 0) with 1. rewrite Z.div_1_r, Z.mul_1_r, Z.div_1_r. reflexivity. }
  assert (E2 : (dev / 2 ^ 20) mod 2 ^ 24 * 2 ^ 20 / 2 ^ 12
               = (dev / 2 ^ 20) mod 2 ^ 24 * 2 ^ 8).
  { replace (2 ^ 20) with (2 ^ 8 * 2 ^ 12) at 2 by reflexivity.
    rewrite Z.mul_assoc. apply Z.div_mul. lia. }
  rewrite E1, E2.
  rewrite (Z.mod_small (dev mod 2 ^ 8)) by lia.
  rewrite (Z.mod_small ((dev / 2 ^ 20) mod 2 ^ 24 * 2 ^ 8)) by lia.
  rewrite Z.lor_comm. rewrite (Utf8Facts.lor_add _ _ 8); lia.
Qed.

Lemma Major_Minor_injective (d1 d2 : Z) :
  0 <= d1 < 2 ^ 64 -> 0 <= d2 < 2 ^ 64 ->
  Unix.Major d1 = Unix.Major d2 -> Unix.Minor d1 = Unix.Minor d2 -> d1 = d2.
Proof.
  intros H1 H2. rewrite !Major_arith, !Minor_arith by assumption.
  intros HM Hm. lia.
Qed.

Lemma Major_Minor_traditional (ma mi : Z) :
  0 <= ma < 2 ^ 12 -> 0 <= mi < 2 ^ 8 ->
  Unix.Major (ma * 256 + mi) = ma /\ Unix.Minor (ma * 256 + mi) = mi.
Proof.
  intros Ha Hi.
  rewrite Major_arith, Minor_arith by lia. split; lia.
Qed.

End DevNumber.

Module ClassifierMore.

Import Unix Config Katautils ClassifierFacts.

Lemma devType_of_values (mode : Z) (t : string) :
  devType_of mode = Some t ->
  (Z.land mode S_IFMT = S_IFBLK /\ t = "b")
  \/ (Z.land mode S_IFMT = S_IFCHR /\ t = "c")
  \/ (Z.land mode S_IFMT = S_IFIFO /\ t = "p").
Proof.
  unfold devType_of.
  destruct (Z.eqb_spec (Z.land mode S_IFMT) S_IFBLK) as [E | _];
    [intros H; injection H as <-; left; split; [exact E | reflexivity] |].
  destruct (Z.eqb_spec (Z.land mode S_IFMT) S_IFCHR) as [E | _];
    [intros H; injection H as <-; right; left; split; [exact E | reflexivity] |].
  destruct (Z.eqb_spec (Z.land mode S_IFMT) S_IFIFO) as [E | _];
    [intros H; injection H as <-; right; right; split; [exact E | reflexivity] |].
  discriminate.
Qed.

(** What [DeviceFromPath] returns, by cases on what it sees. *)
Lemma DeviceFromPath_cases (k : Kernel) (path : string) :
  (exists n, Lstat k path = inl n
             /\ DeviceFromPath k path = (None, Some (SyscallErrno n)))
  \/ (exists stat, Lstat k path = inr stat /\ devType_of (Mode stat) = None
                   /\ DeviceFromPath k path = (None, Some errNotADeviceNode))
  \/ (exists stat t, Lstat k path = inr stat /\ devType_of (Mode stat) = Some t
        /\ DeviceFromPath k path
           = (Some {| ContainerPath := path; DevType := t;
                      Config.Major := Unix.Major (Rdev stat);
                      Config.Minor := Unix.Minor (Rdev stat);
                      UID := Uid stat; GID := Gid stat;
                      FileMode := Z.ldiff (Mode stat) S_IFMT |}, None)).
Proof.
  unfold DeviceFromPath. destruct (Lstat k path) as [n | stat].
  - left. exists n. split; reflexivity.
  - destruct (devType_of (Mode stat)) as [t |] eqn:Ht.
    + right; right. exists stat, t. split; [reflexivity |]. split; [exact Ht |].
      rewrite Major_uint64, Minor_uint64.
      rewrite !int64_small by (apply Major_range || apply Minor_range).
      reflexivity.
    + right; left. exists stat. split; [reflexivity |]. split; [exact Ht | reflexivity].
Qed.

Lemma DeviceFromPath_nonzero (k : Kernel) (path : string) (dev : DeviceInfo) :
  DeviceFromPath k path = (Some dev, None) -> dev <> Config.zero.
Proof.
  intros H Hz.
  destruct (DeviceFromPath_cases k path)
    as [(n & _ & E) | [(stat & _ & _ & E) | (stat & t & _ & Ht & E)]];
    rewrite E in H; try discriminate.
  injection H as <-. apply (f_equal DevType) in Hz. cbn in Hz.
  destruct (devType_of_values _ _ Ht) as [[_ ->] | [[_ ->] | [_ ->]]]; discriminate.
Qed.

(** X1: a descriptor is only ever returned for a node of one of the three
    device types, without an error, and it is well formed. *)
Theorem DeviceFromPath_descriptor
        (k : Kernel) (path : string) (dev : DeviceInfo) (err : option error) :
  DeviceFromPath k path = (Some dev, err) ->
  err = None
  /\ (exists stat : Stat_t,
         Lstat k path = inr stat
         /\ (fmt_of stat = S_IFBLK \/ fmt_of stat = S_IFCHR \/ fmt_of stat = S_IFIFO))
  /\ (DevType dev = "b" \/ DevType dev = "c" \/ DevType dev = "p")
  /\ 0 <= Config.Major dev < 2 ^ 32
  /\ 0 <= Config.Minor dev < 2 ^ 32
  /\ Z.land (FileMode dev) S_IFMT = 0
  /\ ContainerPath dev = path
  /\ dev <> Config.zero.
Proof.
  intros H.
  destruct (DeviceFromPath_cases k path)
    as [(n & _ & E) | [(stat & _ & _ & E) | (stat & t & Hl & Ht & E)]];
    rewrite E in H; try discriminate.
  injection H as <- <-.
  pose proof (devType_of_values _ _ Ht) as Hv. cbn.
  split; [reflexivity |].
  split; [exists stat; split; [exact Hl | unfold fmt_of; tauto] |].
  split; [tauto |].
  split; [apply Major_range |]. split; [apply Minor_range |].
  split; [apply Z.land_ldiff |]. split; [reflexivity |].
  apply (DeviceFromPath_nonzero k path). exact E.
Qed.

Lemma DeviceFromPath_descriptor_witness :
  DeviceFromPath Example.host "/dev/null"
  = (Some {| ContainerPath := "/dev/null"; DevType := "c"; Config.Major := 1;
             Config.Minor := 3; UID := 0; GID := 0; FileMode := 0x1b6 |}, None)
  /\ (exists stat : Stat_t,
         Lstat Example.host "/dev/null" = inr stat
         /\ (fmt_of stat = S_IFBLK \/ fmt_of stat = S_IFCHR \/ fmt_of stat = S_IFIFO)).
Proof.
  split; [reflexivity |].
  exact (proj1 (proj2 (DeviceFromPath_descriptor Example.host "/dev/null" _ None eq_refl))).
Defined.

(** X2: exactly one of the descriptor and the error is nil, so the
    dereference in [GetDeviceInfoByPath] is safe. *)
Theorem DeviceFromPath_one_result (k : Kernel) (path : string) :
  (exists dev, DeviceFromPath k path = (Some dev, None))
  \/ (exists e, DeviceFromPath k path = (None, Some e)).
Proof.
  destruct (DeviceFromPath_cases k path)
    as [(n & _ & E) | [(stat & _ & _ & E) | (stat & t & _ & _ & E)]]; rewrite E.
  - right. eexists. reflexivity.
  - right. eexists. reflexivity.
  - left. eexists. reflexivity.
Qed.

(** X3: the descriptor loses nothing of the device number: two nodes whose
    descriptors have the same major and the same minor number have the
    same device number. *)
Theorem DeviceFromPath_number_injective
        (k : Kernel) (p1 p2 : string) (s1 s2 : Stat_t) (d1 d2 : DeviceInfo) :
  Lstat k p1 = inr s1 -> Lstat k p2 = inr s2 ->
  DeviceFromPath k p1 = (Some d1, None) ->
  DeviceFromPath k p2 = (Some d2, None) ->
  Config.Major d1 = Config.Major d2 -> Config.Minor d1 = Config.Minor d2 ->
  uint64 (Rdev s1) = uint64 (Rdev s2).
Proof.
  intros L1 L2 H1 H2.
  destruct (DeviceFromPath_cases k p1)
    as [(n & _ & E) | [(stat & _ & _ & E) | (stat & t & Hl & _ & E)]];
    rewrite E in H1; try discriminate.
  rewrite L1 in Hl. injection Hl as <-. injection H1 as <-.
  destruct (DeviceFromPath_cases k p2)
    as [(n & _ & E') | [(stat & _ & _ & E') | (stat & t' & Hl & _ & E')]];
    rewrite E' in H2; try discriminate.
  rewrite L2 in Hl. injection Hl as <-. injection H2 as <-.
  cbn [Config.Major Config.Minor].
  rewrite <- (Major_uint64 (Rdev s1)), <- (Major_uint64 (Rdev s2)).
  rewrite <- (Minor_uint64 (Rdev s1)), <- (Minor_uint64 (Rdev s2)).
  apply DevNumber.Major_Minor_injective; unfold uint64; apply Z.mod_pos_bound; lia.
Qed.

Lemma DeviceFromPath_number_injective_witness :
  uint64 0x0800 = uint64 0x0800.
Proof.
  exact (DeviceFromPath_number_injective Example.host "/dev/sda" "/dev/sda"
           (mkStat 0x61b0 0x0800 0 6) (mkStat 0x61b0 0x0800 0 6) _ _
           eq_refl eq_refl eq_refl eq_refl eq_refl eq_refl).
Defined.

(** X4: for a node with a traditional device number, [major * 256 + minor]
    with a major number below 4096 and a minor number below 256, the
    descriptor holds these two numbers. *)
Theorem DeviceFromPath_traditional
        (k : Kernel) (path : string) (stat : Stat_t) (dev : DeviceInfo) (ma mi : Z) :
  Lstat k path = inr stat ->
  Rdev stat = ma * 256 + mi -> 0 <= ma < 2 ^ 12 -> 0 <= mi < 2 ^ 8 ->
  DeviceFromPath k path = (Some dev, None) ->
  Config.Major dev = ma /\ Config.Minor dev = mi.
Proof.
  intros L Hr Ha Hi H.
  destruct (DeviceFromPath_cases k path)
    as [(n & _ & E) | [(st & _ & _ & E) | (st & t & Hl & _ & E)]];
    rewrite E in H; try discriminate.
  rewrite L in Hl. injection Hl as <-. injection H as <-.
  cbn [Config.Major Config.Minor]. rewrite Hr.
  apply DevNumber.Major_Minor_traditional; assumption.
Qed.

Lemma DeviceFromPath_traditional_witness :
  exists dev, DeviceFromPath Example.host "/dev/null" = (Some dev, None)
              /\ Config.Major dev = 1 /\ Config.Minor dev = 3.
Proof.
  eexists. split; [reflexivity |].
  apply (DeviceFromPath_traditional Example.host "/dev/null"
           (mkStat 0x21b6 0x0103 0 0) _ 1 3);
    [reflexivity | reflexivity | lia | lia | reflexivity].
Defined.

Lemma sys_stat_ok_lookup (k : Kernel) (path : string) (st : Stat_t) :
  sys_stat k path = inr st -> exists nd, lookup k path = inr nd.
Proof.
  unfold sys_stat, MAXSYMLINKS. cbn [follow].
  destruct (lookup k path) as [e | nd]; [discriminate |].
  intros _. exists nd. reflexivity.
Qed.

(** X5: on a device node the two entry points agree. *)
Theorem GetDeviceInfoByPath_agrees (k : Kernel) (path : string) (dev : DeviceInfo) :
  DeviceFromPath k path = (Some dev, None) ->
  GetDeviceInfoByPath k path = (dev, None).
Proof.
  intros H.
  destruct (DeviceFromPath_cases k path)
    as [(n & _ & E) | [(stat & _ & _ & E) | (stat & t & Hl & Ht & E)]];
    rewrite E in H; try discriminate.
  destruct (Lstat_ok_lookup k path stat Hl) as (nd & Hnd & <-).
  pose proof (devType_of_values _ _ Ht) as Hv. fold (fmt_of (i_stat nd)) in Hv.
  assert (Hlnk : fmt_of (i_stat nd) <> S_IFLNK)
    by (destruct Hv as [[-> _] | [[-> _] | [-> _]]]; discriminate).
  assert (Hdir : fmt_of (i_stat nd) <> S_IFDIR)
    by (destruct Hv as [[-> _] | [[-> _] | [-> _]]]; discriminate).
  rewrite (GetDeviceInfoByPath_not_dir k path _ (sys_stat_not_link k path nd Hnd Hlnk) Hdir).
  rewrite E. injection H as <-. reflexivity.
Qed.

Lemma GetDeviceInfoByPath_agrees_witness :
  GetDeviceInfoByPath Example.host "/dev/sda"
  = ({| ContainerPath := "/dev/sda"; DevType := "b"; Config.Major := 8;
        Config.Minor := 0; UID := 0; GID := 6; FileMode := 0x1b0 |}, None).
Proof.
  exact (GetDeviceInfoByPath_agrees Example.host "/dev/sda" _ eq_refl).
Defined.

(** What [GetDeviceInfoByPath] returns, by cases on what [os.Stat] sees. *)
Lemma GetDeviceInfoByPath_cases (k : Kernel) (path : string) :
  (exists n, sys_stat k path = inl n
     /\ GetDeviceInfoByPath k path
        = (Config.zero,
           Some (Errorf_w "error stating device path: "
                          (PathError "stat" path (SyscallErrno n)))))
  \/ (exists st, sys_stat k path = inr st /\ fmt_of st = S_IFDIR
        /\ GetDeviceInfoByPath k path = (Config.zero, None))
  \/ (exists st, sys_stat k path = inr st /\ fmt_of st <> S_IFDIR
        /\ ((exists dev, DeviceFromPath k path = (Some dev, None)
                         /\ GetDeviceInfoByPath k path = (dev, None))
            \/ (DeviceFromPath k path = (None, Some errNotADeviceNode)
                /\ GetDeviceInfoByPath k path = (Config.zero, Some errNotADeviceNode)))).
Proof.
  destruct (sys_stat k path) as [n | st] eqn:Hs.
  - left. exists n. split; [reflexivity |].
    unfold GetDeviceInfoByPath, Os.Stat. rewrite Hs. reflexivity.
  - destruct (Z.eq_dec (fmt_of st) S_IFDIR) as [Hd | Hd].
    + right; left. exists st. split; [reflexivity |]. split; [exact Hd |].
      unfold GetDeviceInfoByPath, Os.Stat. rewrite Hs.
      unfold Os.IsDir. cbn [Os.sys]. rewrite Hd. reflexivity.
    + right; right. exists st. split; [reflexivity |]. split; [exact Hd |].
      rewrite (GetDeviceInfoByPath_not_dir k path st Hs Hd).
      destruct (sys_stat_ok_lookup k path st Hs) as (nd & Hnd).
      destruct (DeviceFromPath_cases k path)
        as [(n & Hl & E) | [(stat & _ & _ & E) | (stat & t & _ & _ & E)]]; rewrite E.
      * unfold Lstat, sys_lstat in Hl. rewrite Hnd in Hl. discriminate.
      * right. split; reflexivity.
      * left. eexists. split; reflexivity.
Qed.

(** X6: without an error, the zero descriptor stands for a directory and
    nothing else; any other descriptor is the one of [DeviceFromPath]. *)
Theorem GetDeviceInfoByPath_success (k : Kernel) (path : string) (d : DeviceInfo) :
  GetDeviceInfoByPath k path = (d, None) ->
  (d = Config.zero <-> exists st, sys_stat k path = inr st /\ fmt_of st = S_IFDIR)
  /\ (d <> Config.zero -> DeviceFromPath k path = (Some d, None)).
Proof.
  intros H.
  destruct (GetDeviceInfoByPath_cases k path)
    as [(n & Hs & E) | [(st & Hs & Hd & E) | (st & Hs & Hd & [(dev & Hdev & E) | (_ & E)])]];
    rewrite E in H; try discriminate.
  - injection H as <-. split.
    + split; [intros _; exists st; split; assumption | reflexivity].
    + intros Hz. contradiction Hz. reflexivity.
  - injection H as <-.
    pose proof (DeviceFromPath_nonzero k path dev Hdev) as Hnz.
    split.
    + split; [intros Hz; contradiction | ].
      intros (st' & Hs' & Hd'). rewrite Hs in Hs'. injection Hs' as <-. contradiction.
    + intros _. exact Hdev.
Qed.

Lemma GetDeviceInfoByPath_success_witness :
  (Config.zero = Config.zero
   <-> exists st, sys_stat Example.host "/var/tmp" = inr st /\ fmt_of st = S_IFDIR)
  /\ (exists d, GetDeviceInfoByPath Example.host "/run/initctl" = (d, None)
                /\ DeviceFromPath Example.host "/run/initctl" = (Some d, None)).
Proof.
  split.
  - exact (proj1 (GetDeviceInfoByPath_success Example.host "/var/tmp" _ eq_refl)).
  - eexists. split; [reflexivity |].
    apply (proj2 (GetDeviceInfoByPath_success Example.host "/run/initctl" _ eq_refl)).
    discriminate.
Defined.





End ClassifierMore.

(** * Properties of the file helpers *)

Module FilesFacts.

Import Unix Config Katautils ClassifierFacts Files.

Lemma FileExists_eq (k : Kernel) (path : string) :
  FileExists k path =
    match sys_stat k path with
    | inl ENOENT => false
    | _ => true
    end.
Proof.
  unfold FileExists, Os.Stat.
  destruct (sys_stat k path) as [n | st]; [destruct n |]; reflexivity.
Qed.

(** X9: [FileExists] answers false only for ENOENT. *)
Theorem FileExists_false_iff (k : Kernel) (path : string) :
  (FileExists k path = false <-> sys_stat k path = inl ENOENT)
  /\ (forall n, sys_stat k path = inl n -> n <> ENOENT -> FileExists k path = true).
Proof.
  rewrite FileExists_eq. split.
  - destruct (sys_stat k path) as [n | st]; [destruct n |];
      split; intros H; try reflexivity; discriminate.
  - intros n -> Hn. destruct n; try reflexivity. contradiction.
Qed.

(** [FileExists] takes what it cannot reach for something that exists. *)
Lemma FileExists_false_iff_witness :
  FileExists Example.host "/dev/gone" = false
  /\ FileExists Example.host "/root/dev" = true.
Proof.
  split.
  - apply (proj2 (proj1 (FileExists_false_iff Example.host "/dev/gone"))).
    reflexivity.
  - apply (proj2 (FileExists_false_iff Example.host "/root/dev") EACCES);
      [reflexivity | discriminate].
Defined.

(** X10: a path that [GetDeviceInfoByPath] accepts exists for [FileExists];
    a path that does not exist for [FileExists] makes [GetDeviceInfoByPath]
    fail with an error that [errors.Is] relates to [os.ErrNotExist]. *)
Theorem FileExists_GetDeviceInfoByPath (k : Kernel) (path : string) :
  (forall d, GetDeviceInfoByPath k path = (d, None) -> FileExists k path = true)
  /\ (FileExists k path = false ->
      exists e, GetDeviceInfoByPath k path = (Config.zero, Some e)
                /\ Oserror.errors_Is_ErrNotExist e = true).
Proof.
  split.
  - intros d H. rewrite FileExists_eq.
    unfold GetDeviceInfoByPath, Os.Stat in H.
    destruct (sys_stat k path) as [n | st]; [discriminate | reflexivity].
  - rewrite FileExists_eq. unfold GetDeviceInfoByPath, Os.Stat.
    destruct (sys_stat k path) as [n | st]; [destruct n |]; try discriminate.
    intros _. eexists. split; reflexivity.
Qed.

Lemma FileExists_GetDeviceInfoByPath_witness :
  exists e, GetDeviceInfoByPath Example.host "/dev/gone" = (Config.zero, Some e)
            /\ Oserror.errors_Is_ErrNotExist e = true.
Proof.
  apply (proj2 (FileExists_GetDeviceInfoByPath Example.host "/dev/gone")).
  reflexivity.
Defined.

Section Resolve.

Variable filepath_Abs : string -> string * option error.
Variable filepath_EvalSymlinks : string -> string * option error.

Local Notation "'ResolvePath_'" := (ResolvePath filepath_Abs filepath_EvalSymlinks).
Local Notation "'IsBlockDevice_'" := (IsBlockDevice filepath_Abs filepath_EvalSymlinks).

(** X11: a not-exist failure of [filepath.EvalSymlinks] is replaced by a plain
    error that names the absolute path; no path is returned, and neither
    [os.IsNotExist] nor [errors.Is] recognises the new error. *)
Theorem ResolvePath_not_exist (path absolute r : string) (e : error) :
  path <> "" ->
  filepath_Abs path = (absolute, None) ->
  filepath_EvalSymlinks absolute = (r, Some e) ->
  Oserror.IsNotExist (Some e) = true ->
  exists e' : error,
    ResolvePath_ path = ("", Some e')
    /\ Error e' = "file " ++ absolute ++ " does not exist"
    /\ Unwrap e' = None
    /\ Oserror.IsNotExist (Some e') = false
    /\ Oserror.errors_Is_ErrNotExist e' = false.
Proof.
  intros Hp Ha He Hn. unfold ResolvePath.
  destruct (String.eqb_spec path "") as [E | _]; [contradiction |].
  rewrite Ha, He, Hn. eexists. split; [reflexivity |]. repeat split.
Qed.

(** X12: [ResolvePath] returns a path only for a name that is not empty,
    and then it is what [filepath.EvalSymlinks] makes of the absolute
    name; with an error the path returned is empty, whatever the library
    returned beside its error. *)
Theorem ResolvePath_result (path r : string) (err : option error) :
  ResolvePath_ path = (r, err) ->
  (err = None ->
   path <> ""
   /\ exists absolute, filepath_Abs path = (absolute, None)
                       /\ filepath_EvalSymlinks absolute = (r, None))
  /\ (err <> None -> r = "").
Proof.
  unfold ResolvePath.
  destruct (String.eqb_spec path "") as [E | Hne].
  { intros H. injection H as <- <-. split; [discriminate | reflexivity]. }
  destruct (filepath_Abs path) as [absolute [e |]] eqn:Ha.
  { intros H. injection H as <- <-. split; [discriminate | reflexivity]. }
  destruct (filepath_EvalSymlinks absolute) as [resolved [e |]] eqn:He.
  - destruct (Oserror.IsNotExist (Some e)); intros H; injection H as <- <-;
      (split; [discriminate | reflexivity]).
  - intros H. injection H as <- <-. split.
    + intros _. split; [exact Hne |]. exists absolute. split; [reflexivity | exact He].
    + intros H. contradiction H. reflexivity.
Qed.

Lemma land_S_IFBLK (mode : Z) :
  Z.land mode S_IFBLK = Z.land (Z.land mode S_IFMT) S_IFBLK.
Proof. rewrite <- Z.land_assoc. reflexivity. Qed.

(** X13: the test [Mode & S_IFBLK == S_IFBLK] singles out the block devices
    among the file types, although the character devices and the
    directories each share a bit with [S_IFBLK]. *)
Theorem IsBlockDevice_block (k : Kernel) (filePath devicePath : string) (stat : Stat_t) :
  ResolvePath_ filePath = (devicePath, None) ->
  sys_stat k devicePath = inr stat ->
  file_type (fmt_of stat) ->
  IsBlockDevice_ k filePath = (fmt_of stat =? S_IFBLK).
Proof.
  intros Hr Hs Ht. unfold IsBlockDevice.
  destruct (String.eqb_spec filePath "") as [E | _].
  - subst filePath. unfold ResolvePath in Hr. cbn in Hr. discriminate.
  - rewrite Hr, Hs, land_S_IFBLK. fold (fmt_of stat).
    destruct Ht as [E | [E | [E | [E | [E | [E | E]]]]]]; rewrite E; reflexivity.
Qed.

(** X14: [IsBlockDevice] answers true only for a path that resolves and whose
    resolved name can be stated; every failure on the way gives false. *)
Theorem IsBlockDevice_true (k : Kernel) (filePath : string) :
  IsBlockDevice_ k filePath = true ->
  filePath <> ""
  /\ exists absolute devicePath stat,
       filepath_Abs filePath = (absolute, None)
       /\ filepath_EvalSymlinks absolute = (devicePath, None)
       /\ sys_stat k devicePath = inr stat
       /\ Z.testbit (Mode stat) 13 = true /\ Z.testbit (Mode stat) 14 = true.
Proof.
  unfold IsBlockDevice, ResolvePath.
  destruct (String.eqb_spec filePath "") as [E | Hne]; [discriminate |].
  destruct (filepath_Abs filePath) as [absolute [e |]] eqn:Ha; [discriminate |].
  destruct (filepath_EvalSymlinks absolute) as [devicePath [e |]] eqn:He.
  - destruct (Oserror.IsNotExist (Some e)); discriminate.
  - destruct (sys_stat k devicePath) as [n | stat] eqn:Hs; [discriminate |].
    intros H. apply Z.eqb_eq in H. split; [exact Hne |].
    exists absolute, devicePath, stat.
    split; [reflexivity |]. split; [exact He |]. split; [exact Hs |].
    split.
    + apply (f_equal (fun z => Z.testbit z 13)) in H.
      rewrite Z.land_spec in H. change (Z.testbit S_IFBLK 13) with true in H.
      rewrite andb_true_r in H. exact H.
    + apply (f_equal (fun z => Z.testbit z 14)) in H.
      rewrite Z.land_spec in H. change (Z.testbit S_IFBLK 14) with true in H.
      rewrite andb_true_r in H. exact H.
Qed.

(** X15: on a resolved name that is no symbolic link, [IsBlockDevice] and
    [DeviceFromPath] agree: the first answers true exactly when the second
    returns a descriptor of type "b". *)
Theorem IsBlockDevice_DeviceFromPath
        (k : Kernel) (filePath devicePath : string) (stat : Stat_t) :
  ResolvePath_ filePath = (devicePath, None) ->
  Lstat k devicePath = inr stat ->
  fmt_of stat <> S_IFLNK ->
  file_type (fmt_of stat) ->
  (IsBlockDevice_ k filePath = true
   <-> exists dev, DeviceFromPath k devicePath = (Some dev, None)
                   /\ DevType dev = "b").
Proof.
  intros Hr Hl Hlnk Ht.
  destruct (Lstat_ok_lookup k devicePath stat Hl) as (nd & Hnd & <-).
  pose proof (sys_stat_not_link k devicePath nd Hnd Hlnk) as Hs.
  assert (Hb : IsBlockDevice_ k filePath = (fmt_of (i_stat nd) =? S_IFBLK)).
  { unfold IsBlockDevice.
    destruct (String.eqb_spec filePath "") as [E | _].
    - subst filePath. unfold ResolvePath in Hr. cbn in Hr. discriminate.
    - rewrite Hr, Hs, land_S_IFBLK. fold (fmt_of (i_stat nd)).
      destruct Ht as [E | [E | [E | [E | [E | [E | E]]]]]]; rewrite E; reflexivity. }
  rewrite Hb. unfold DeviceFromPath. rewrite Hl. unfold devType_of.
  fold (fmt_of (i_stat nd)).
  destruct Ht as [E | [E | [E | [E | [E | [E | E]]]]]]; rewrite E; cbn;
    split; intros H; try reflexivity; try discriminate;
    try (destruct H as (dev & H & Hb'); try discriminate;
         injection H as <-; discriminate).
  eexists. split; reflexivity.
Qed.

End Resolve.

Lemma ResolvePath_not_exist_witness :
  exists e' : error,
    ResolvePath ExampleFiles.abs ExampleFiles.evalSymlinks "/dev/gone" = ("", Some e')
    /\ Error e' = "file /dev/gone does not exist"
    /\ Oserror.IsNotExist (Some e') = false.
Proof.
  destruct (ResolvePath_not_exist ExampleFiles.abs ExampleFiles.evalSymlinks
              "/dev/gone" "/dev/gone" ""
              (PathError "lstat" "/dev/sdz" (SyscallErrno ENOENT)))
    as (e' & H1 & H2 & _ & H4 & _);
    [discriminate | reflexivity | reflexivity | reflexivity |].
  exists e'. split; [exact H1 |]. split; [exact H2 | exact H4].
Defined.

Lemma IsBlockDevice_block_witness :
  IsBlockDevice ExampleFiles.abs ExampleFiles.evalSymlinks Example.host
                "/dev/disk/by-label/data" = true
  /\ IsBlockDevice ExampleFiles.abs ExampleFiles.evalSymlinks Example.host
                   "/dev/null" = false
  /\ IsBlockDevice ExampleFiles.abs ExampleFiles.evalSymlinks Example.host
                   "/var/tmp" = false.
Proof.
  split; [| split].
  - apply (IsBlockDevice_block ExampleFiles.abs ExampleFiles.evalSymlinks Example.host
             "/dev/disk/by-label/data" "/dev/sda" (mkStat 0x61b0 0x0800 0 6));
      [reflexivity | reflexivity |].
    right; right; right; left. reflexivity.
  - apply (IsBlockDevice_block ExampleFiles.abs ExampleFiles.evalSymlinks Example.host
             "/dev/null" "/dev/null" (mkStat 0x21b6 0x0103 0 0));
      [reflexivity | reflexivity |].
    do 5 right; left. reflexivity.
  - apply (IsBlockDevice_block ExampleFiles.abs ExampleFiles.evalSymlinks Example.host
             "/var/tmp" "/tmp" (mkStat 0x43ff 0 0 0));
      [reflexivity | reflexivity |].
    do 4 right; left. reflexivity.
Defined.

Lemma ResolvePath_result_witness :
  "/dev/disk/by-label/data" <> ""
  /\ exists absolute,
       ExampleFiles.abs "/dev/disk/by-label/data" = (absolute, None)
       /\ ExampleFiles.evalSymlinks absolute = ("/dev/sda", None).
Proof.
  exact (proj1 (ResolvePath_result ExampleFiles.abs ExampleFiles.evalSymlinks
                  "/dev/disk/by-label/data" "/dev/sda" None eq_refl) eq_refl).
Defined.

Lemma IsBlockDevice_DeviceFromPath_witness :
  exists dev, DeviceFromPath Example.host "/dev/sda" = (Some dev, None)
              /\ DevType dev = "b".
Proof.
  apply (proj1 (IsBlockDevice_DeviceFromPath ExampleFiles.abs ExampleFiles.evalSymlinks
                  Example.host "/dev/disk/by-label/data" "/dev/sda"
                  (mkStat 0x61b0 0x0800 0 6) eq_refl eq_refl
                  ltac:(discriminate)
                  (or_intror (or_intror (or_intror (or_introl eq_refl)))))).
  reflexivity.
Defined.

Lemma IsBlockDevice_true_witness :
  exists absolute devicePath stat,
    ExampleFiles.abs "/dev/disk/by-label/data" = (absolute, None)
    /\ ExampleFiles.evalSymlinks absolute = (devicePath, None)
    /\ sys_stat Example.host devicePath = inr stat.
Proof.
  destruct (IsBlockDevice_true ExampleFiles.abs ExampleFiles.evalSymlinks Example.host
              "/dev/disk/by-label/data" eq_refl)
    as (_ & absolute & devicePath & stat & Ha & He & Hs & _).
  exists absolute, devicePath, stat. split; [exact Ha |]. split; [exact He | exact Hs].
Defined.

End FilesFacts.

(** * Further properties of identifier validation *)

Module ValidatorMore.

Import Katautils ValidatorFacts.

Lemma all_chars_append (p : ascii -> bool) (a b : string) :
  Spec.all_chars p (a ++ b) = (Spec.all_chars p a && Spec.all_chars p b)%bool.
Proof.
  induction a as [| c a IH]; cbn; [reflexivity |].
  rewrite IH, andb_assoc. reflexivity.
Qed.

Lemma all_chars_In (p : ascii -> bool) (s : string) :
  Spec.all_chars p s = true ->
  forall c, In c (list_ascii_of_string s) -> p c = true.
Proof.
  induction s as [| x s IH]; cbn; intros H c Hin; [contradiction |].
  apply andb_true_iff in H. destruct H as [Hx Hs].
  destruct Hin as [<- | Hin]; [exact Hx | exact (IH Hs c Hin)].
Qed.

Lemma alphanumeric_id_char (c : ascii) :
  Spec.alphanumeric c = true -> Spec.id_char c = true.
Proof. unfold Spec.id_char. intros ->. reflexivity. Qed.

Lemma VerifyContainerID_None (id : string) :
  VerifyContainerID id = None <-> Spec.well_formed_id id = true.
Proof.
  rewrite VerifyContainerID_eq.
  destruct (Spec.well_formed_id id); split; intros H; try reflexivity; discriminate.
Qed.

(** X16: an accepted identifier is made of letters, digits, [_], [.] and [-]
    only, and starts with a letter or a digit: it holds no path separator,
    no white space and no NUL, and it is neither "." nor "..". *)
Theorem VerifyContainerID_charset (id : string) :
  VerifyContainerID id = None ->
  (forall c, In c (list_ascii_of_string id) -> Spec.id_char c = true)
  /\ ~ In "/"%char (list_ascii_of_string id)
  /\ ~ In " "%char (list_ascii_of_string id)
  /\ ~ In zero (list_ascii_of_string id)
  /\ id <> "." /\ id <> "..".
Proof.
  intros H. apply VerifyContainerID_None in H.
  destruct id as [| c rest]; [discriminate |]. cbn in H.
  apply andb_true_iff in H. destruct H as [H Hrest].
  apply andb_true_iff in H. destruct H as [Hc Hne].
  assert (Hall : forall x, In x (list_ascii_of_string (String c rest)) ->
                           Spec.id_char x = true).
  { intros x [<- | Hin]; [apply alphanumeric_id_char, Hc |].
    exact (all_chars_In _ _ Hrest x Hin). }
  split; [exact Hall |].
  split; [intros Hin; apply Hall in Hin; discriminate |].
  split; [intros Hin; apply Hall in Hin; discriminate |].
  split; [intros Hin; apply Hall in Hin; discriminate |].
  split; intros E; injection E as -> _; discriminate.
Qed.

Lemma VerifyContainerID_charset_witness :
  VerifyContainerID "abc-1" = None
  /\ ~ In "/"%char (list_ascii_of_string "abc-1").
Proof.
  assert (Hv : VerifyContainerID "abc-1" = None) by (vm_compute; reflexivity).
  split; [exact Hv |].
  exact (proj1 (proj2 (VerifyContainerID_charset "abc-1" Hv))).
Defined.

(** X17: there is no length check: an accepted identifier followed by any
    text of identifier characters is accepted, and followed by anything
    else it is refused. *)
Theorem VerifyContainerID_append (id more : string) :
  VerifyContainerID id = None ->
  VerifyContainerID (id ++ more)
  = if Spec.all_chars Spec.id_char more then None else Some errInvalidID.
Proof.
  intros H. apply VerifyContainerID_None in H.
  rewrite VerifyContainerID_eq.
  destruct id as [| c rest]; [discriminate |].
  cbn [append Spec.well_formed_id String.eqb] in *.
  apply andb_true_iff in H. destruct H as [H Hrest].
  apply andb_true_iff in H. destruct H as [Hc Hne].
  rewrite Hc, all_chars_append, Hrest.
  assert (E : negb (String.eqb (rest ++ more) "") = true).
  { destruct rest; [discriminate | reflexivity]. }
  rewrite E. cbn [andb].
  destruct (Spec.all_chars Spec.id_char more); reflexivity.
Qed.

Lemma VerifyContainerID_append_witness :
  VerifyContainerID ("abc-1" ++ "_2.x") = None
  /\ VerifyContainerID ("abc-1" ++ "/..") = Some errInvalidID.
Proof.
  assert (Hv : VerifyContainerID "abc-1" = None) by (vm_compute; reflexivity).
  split.
  - exact (VerifyContainerID_append "abc-1" "_2.x" Hv).
  - exact (VerifyContainerID_append "abc-1" "/.." Hv).
Defined.

End ValidatorMore.

(** * Further properties of the device commands *)

Module ClientMore.

Import Shimclient Containerdshim Cli Katautils ClientFacts CliTrace.

Section Commands.

Variable defaultTimeout : Z.
Variable DeviceUrl : string.
Variable shim : list Call -> Call -> string * option error.

Local Notation "'list_'" := (listDeviceAction defaultTimeout DeviceUrl shim).
Local Notation "'attach_'" := (attachDeviceAction defaultTimeout DeviceUrl shim).
Local Notation "'detach_'" := (detachDeviceAction defaultTimeout DeviceUrl shim).

Local Notation "'getCall'" := (CliTrace.getCall defaultTimeout DeviceUrl).
Local Notation "'putCall'" := (CliTrace.putCall defaultTimeout DeviceUrl).
Local Notation "'deleteCall'" := (CliTrace.deleteCall defaultTimeout DeviceUrl).

Lemma list_run (w : World) :
  VerifyContainerID (sandboxID w) = None ->
  list_ w =
    match shim (calls w) (getCall w) with
    | (_, Some err) => (Some err, record (getCall w) w)
    | (body, None) =>
        (None, mkWorld (sandboxID w) (devPath w) (calls w ++ [getCall w])%list
                       (stdout w ++ body ++ newline))
    end.
Proof.
  intros H. unfold listDeviceAction, bind, get_sandboxID. rewrite H.
  unfold shimclient_DoGet, invoke. fold (getCall w).
  destruct (shim (calls w) (getCall w)) as [body [err |]]; reflexivity.
Qed.

(** X18: with a valid identifier, list returns the error of [DoGet] as it is
    and prints nothing, or returns no error and prints the body followed by
    a newline. *)
Theorem list_output (w : World) :
  VerifyContainerID (sandboxID w) = None ->
  fst (list_ w) = snd (shim (calls w) (getCall w))
  /\ stdout (snd (list_ w))
     = match snd (shim (calls w) (getCall w)) with
       | Some _ => stdout w
       | None => stdout w ++ fst (shim (calls w) (getCall w)) ++ newline
       end.
Proof.
  intros H. rewrite (list_run w H).
  destruct (shim (calls w) (getCall w)) as [body [err |]]; split; reflexivity.
Qed.

(** X19: attach and detach never write to the standard output, and list
    does not either when the identifier is refused. *)
Theorem attach_detach_silent (w : World) :
  stdout (snd (attach_ w)) = stdout w
  /\ stdout (snd (detach_ w)) = stdout w
  /\ (VerifyContainerID (sandboxID w) <> None -> stdout (snd (list_ w)) = stdout w).
Proof.
  destruct (VerifyContainerID (sandboxID w)) as [e |] eqn:Hv.
  - rewrite (attach_invalid _ _ _ w e Hv), (detach_invalid _ _ _ w e Hv),
      (list_invalid _ _ _ w e Hv). repeat split.
  - rewrite (attach_valid _ _ _ w Hv), (detach_valid _ _ _ w Hv).
    split; [reflexivity |]. split; [reflexivity |]. intros H. contradiction.
Qed.

(** X20: the error of an action is the one of the identifier check, or else
    the one of the single call: serializing the request never fails. *)
Theorem error_origin (w : World) :
  fst (list_ w)
  = match VerifyContainerID (sandboxID w) with
    | Some e => Some e
    | None => snd (shim (calls w) (getCall w))
    end
  /\ fst (attach_ w)
     = match VerifyContainerID (sandboxID w) with
       | Some e => Some e
       | None => snd (shim (calls w) (putCall w))
       end
  /\ fst (detach_ w)
     = match VerifyContainerID (sandboxID w) with
       | Some e => Some e
       | None => snd (shim (calls w) (deleteCall w))
       end.
Proof.
  destruct (VerifyContainerID (sandboxID w)) as [e |] eqn:Hv.
  - rewrite (attach_invalid _ _ _ w e Hv), (detach_invalid _ _ _ w e Hv),
      (list_invalid _ _ _ w e Hv). repeat split.
  - rewrite (attach_valid _ _ _ w Hv), (detach_valid _ _ _ w Hv), (list_run w Hv).
    split; [| split; reflexivity].
    destruct (shim (calls w) (getCall w)) as [body [err |]]; reflexivity.
Qed.

Lemma list_extends (w : World) :
  extends w (snd (list_ w))
          (match VerifyContainerID (sandboxID w) with
           | None => [getCall w]
           | Some _ => []
           end).
Proof.
  destruct (VerifyContainerID (sandboxID w)) as [e |] eqn:Hv.
  - rewrite (list_invalid _ _ _ w e Hv). unfold extends. cbn.
    rewrite app_nil_r. repeat split.
  - rewrite (list_run w Hv).
    destruct (shim (calls w) (getCall w)) as [body [err |]]; unfold extends; cbn;
      repeat split.
Qed.

Lemma attach_extends (w : World) :
  extends w (snd (attach_ w))
          (match VerifyContainerID (sandboxID w) with
           | None => [putCall w]
           | Some _ => []
           end).
Proof.
  destruct (VerifyContainerID (sandboxID w)) as [e |] eqn:Hv.
  - rewrite (attach_invalid _ _ _ w e Hv). unfold extends. cbn.
    rewrite app_nil_r. repeat split.
  - rewrite (attach_valid _ _ _ w Hv). unfold extends. cbn. repeat split.
Qed.

Lemma detach_extends (w : World) :
  extends w (snd (detach_ w))
          (match VerifyContainerID (sandboxID w) with
           | None => [deleteCall w]
           | Some _ => []
           end).
Proof.
  destruct (VerifyContainerID (sandboxID w)) as [e |] eqn:Hv.
  - rewrite (detach_invalid _ _ _ w e Hv). unfold extends. cbn.
    rewrite app_nil_r. repeat split.
  - rewrite (detach_valid _ _ _ w Hv). unfold extends. cbn. repeat split.
Qed.

(** X21: an action keeps the flags and the calls made before it, and adds
    one call when the identifier is valid and none otherwise: there is no
    retry, whatever the shim answers. *)
Theorem one_call_at_most (w : World) :
  exists new_l new_a new_d : list Call,
    extends w (snd (list_ w)) new_l
    /\ extends w (snd (attach_ w)) new_a
    /\ extends w (snd (detach_ w)) new_d
    /\ List.length new_l = List.length new_a
    /\ List.length new_a = List.length new_d
    /\ List.length new_d
       = match VerifyContainerID (sandboxID w) with None => 1%nat | Some _ => 0%nat end.
Proof.
  eexists. eexists. eexists.
  split; [apply list_extends |]. split; [apply attach_extends |].
  split; [apply detach_extends |].
  destruct (VerifyContainerID (sandboxID w)); repeat split.
Qed.

(** X22: attach, then detach, then list, with a valid identifier: the three
    calls are made in this order, for the same sandbox, each after the
    calls before it. *)
Theorem attach_detach_list (w : World) :
  VerifyContainerID (sandboxID w) = None ->
  calls (snd (list_ (snd (detach_ (snd (attach_ w))))))
  = (calls w ++ [putCall w; deleteCall w; getCall w])%list.
Proof.
  intros Hv.
  pose proof (attach_extends w) as (Ha1 & Ha2 & Ha3). rewrite Hv in Ha3.
  set (w1 := snd (attach_ w)) in *.
  assert (Hv1 : VerifyContainerID (sandboxID w1) = None) by (rewrite Ha1; exact Hv).
  pose proof (detach_extends w1) as (Hd1 & Hd2 & Hd3). rewrite Hv1 in Hd3.
  set (w2 := snd (detach_ w1)) in *.
  assert (Hv2 : VerifyContainerID (sandboxID w2) = None)
    by (rewrite Hd1; exact Hv1).
  pose proof (list_extends w2) as (Hl1 & Hl2 & Hl3). rewrite Hv2 in Hl3.
  rewrite Hl3, Hd3, Ha3, <- !app_assoc. cbn [app].
  unfold CliTrace.getCall, CliTrace.deleteCall. rewrite Hd1, Ha1, Ha2. reflexivity.
Qed.

(** X23: list does not look at the device path. *)
Theorem list_ignores_devPath (w : World) (p : string) :
  let w' := mkWorld (sandboxID w) p (calls w) (stdout w) in
  fst (list_ w') = fst (list_ w)
  /\ calls (snd (list_ w')) = calls (snd (list_ w))
  /\ stdout (snd (list_ w')) = stdout (snd (list_ w)).
Proof.
  intros w'. unfold listDeviceAction, bind, get_sandboxID. cbn [sandboxID w'].
  destruct (VerifyContainerID (sandboxID w)); [repeat split |].
  unfold shimclient_DoGet, invoke. cbn [calls w'].
  destruct (shim (calls w) (DoGet (sandboxID w) defaultTimeout DeviceUrl))
    as [body [err |]]; repeat split.
Qed.

End Commands.

Lemma attach_detach_silent_witness :
  stdout (snd (attachDeviceAction 3000000000 "/device" Example.quiet
                 (mkWorld "abc-1" "/dev/sdb" [] "seen"))) = "seen"
  /\ stdout (snd (listDeviceAction 3000000000 "/device" Example.quiet
                    (mkWorld "a" "" [] "seen"))) = "seen".
Proof.
  split.
  - exact (proj1 (attach_detach_silent 3000000000 "/device" Example.quiet
                    (mkWorld "abc-1" "/dev/sdb" [] "seen"))).
  - apply (proj2 (proj2 (attach_detach_silent 3000000000 "/device" Example.quiet
                           (mkWorld "a" "" [] "seen")))).
    vm_compute. discriminate.
Defined.

Lemma list_output_witness :
  listDeviceAction 3000000000 "/device" Example.quiet (mkWorld "abc-1" "" [] "")
  = (None, mkWorld "abc-1" "" [DoGet "abc-1" 3000000000 "/device"]
                   ("[]" ++ newline))
  /\ fst (listDeviceAction 3000000000 "/device" ExampleFiles.failing
                           (mkWorld "abc-1" "" [] ""))
     = Some (errorString "500 Internal Server Error")
  /\ stdout (snd (listDeviceAction 3000000000 "/device" ExampleFiles.failing
                                   (mkWorld "abc-1" "" [] ""))) = "".
Proof.
  assert (Hv : VerifyContainerID "abc-1" = None) by (vm_compute; reflexivity).
  split; [reflexivity |].
  exact (list_output 3000000000 "/device" ExampleFiles.failing
                     (mkWorld "abc-1" "" [] "") Hv).
Defined.

Lemma attach_detach_list_witness :
  calls (snd (listDeviceAction 3000000000 "/device" Example.quiet
          (snd (detachDeviceAction 3000000000 "/device" Example.quiet
            (snd (attachDeviceAction 3000000000 "/device" Example.quiet
              (mkWorld "abc-1" "/dev/sdb" [] "")))))))
  = [DoPut "abc-1" 30000000000 "/device" "application/json"
           (fst (Json.Marshal {| DevicePath := "/dev/sdb" |}));
     DoDelete "abc-1" 30000000000 "/device" "application/json"
              (fst (Json.Marshal {| DevicePath := "/dev/sdb" |}));
     DoGet "abc-1" 3000000000 "/device"].
Proof.
  assert (Hv : VerifyContainerID "abc-1" = None) by (vm_compute; reflexivity).
  exact (attach_detach_list 3000000000 "/device" Example.quiet
                            (mkWorld "abc-1" "/dev/sdb" [] "") Hv).
Defined.

End ClientMore.

(** * What the serialized request decodes to *)

Module CoerceFacts.

Import Utf8 Utf8Cases Json Containerdshim Utf8Facts JsonFacts Utf8Coerce.

Lemma after_length (size : nat) (s r : string) :
  Utf8.after size s = Some r -> (String.length r < String.length s)%nat.
Proof.
  destruct size as [| [| [| [| [| n]]]]]; cbn; try discriminate;
    destruct s as [| a0 [| a1 [| a2 [| a3 t]]]]; cbn; try discriminate;
    intros H; injection H as <-; cbn; lia.
Qed.

Lemma not_error_ascii (a0 : ascii) :
  byteZ a0 < 0x80 -> ((byteZ a0 =? RuneError) && Nat.eqb 1 1)%bool = false.
Proof.
  intros H. unfold RuneError.
  destruct (Z.eqb_spec (byteZ a0) 0xFFFD); [lia | reflexivity].
Qed.

Lemma string_loop_invalid (a0 : ascii) (t0 : string) :
  0x80 <= byteZ a0 ->
  is_error (DecodeRuneInString (String a0 t0)) = true ->
  string_loop (String a0 t0) = String backslash "ufffd" ++ string_loop t0.
Proof.
  intros H Herr. cbn [string_loop]. unfold RuneSelf.
  destruct (Z.ltb_spec (byteZ a0) 0x80); [lia |].
  unfold is_error in Herr.
  destruct (DecodeRuneInString (String a0 t0)) as [c size]. cbn [fst snd] in Herr.
  rewrite Herr. reflexivity.
Qed.

Lemma unquote_replacement (tail : string) :
  unquote (String backslash "ufffd" ++ tail)
  = prepend (EncodeRune RuneError) (unquote tail).
Proof. reflexivity. Qed.

(** Reading back what the encoder wrote, for any text. *)
Lemma unquote_string_loop_any (rest : string) :
  forall (fuel : nat) (s : string),
    (String.length s <= fuel)%nat ->
    unquote (string_loop s ++ String dq rest) = Some (coerce_loop fuel s, rest).
Proof.
  induction fuel as [| fuel IH]; intros s Hlen.
  - destruct s; [reflexivity | cbn in Hlen; lia].
  - destruct s as [| a0 t0]; [reflexivity |].
    cbn [String.length] in Hlen. cbn [coerce_loop].
    destruct (Z.lt_ge_cases (byteZ a0) 0x80) as [Hlt | Hge].
    + rewrite (decode_ascii a0 t0 Hlt), (not_error_ascii a0 Hlt).
      cbn [Utf8.after substring]. rewrite substring_0_0.
      rewrite (string_loop_ascii a0 t0 Hlt), append_assoc, unquote_ascii by assumption.
      rewrite (IH t0) by lia. reflexivity.
    + destruct (is_error (DecodeRuneInString (String a0 t0))) eqn:Herr.
      * rewrite (string_loop_invalid a0 t0 Hge Herr), append_assoc, unquote_replacement.
        unfold is_error in Herr.
        destruct (DecodeRuneInString (String a0 t0)) as [c size]. cbn [fst snd] in Herr.
        rewrite Herr, (IH t0) by lia. reflexivity.
      * pose proof Herr as Hok. rewrite DecodeRuneInString_form in Hok.
        destruct (encode_decoded a0 t0 Hge Hok) as (r & Hafter & Hs & Hsub).
        rewrite <- DecodeRuneInString_form in Hafter, Hs, Hsub.
        rewrite (string_loop_multibyte a0 t0 r Hge Herr Hafter), append_assoc.
        pose proof (unquote_multibyte a0 t0 (string_loop r ++ String dq rest) Hge Herr)
          as Hcopy.
        pose proof (after_length _ _ _ Hafter) as Hshort. cbn [String.length] in Hshort.
        unfold is_error in Herr.
        destruct (DecodeRuneInString (String a0 t0)) as [c size]. cbn [fst snd] in *.
        rewrite Herr, Hafter. cbv zeta.
        destruct ((c =? 0x2028) || (c =? 0x2029))%bool eqn:Hsep.
        -- rewrite unquote_line_separator, (IH r) by lia.
           cbn [prepend]. rewrite Hsub. reflexivity.
        -- rewrite Hcopy, (IH r) by lia. cbn [prepend]. rewrite Hsub. reflexivity.
Qed.

Lemma Unmarshal_Marshal_any (p : string) :
  Unmarshal (fst (Marshal (mkDeviceRequest p))) = Some (mkDeviceRequest (ToValid p)).
Proof.
  rewrite Marshal_value. cbn [fst].
  change ("{" ++ String dq ("device_path" ++ String dq (":"
            ++ String dq (string_loop p ++ String dq "}"))))
    with (String "{" (String dq (string_loop "device_path" ++ String dq (String ":"
            (String dq (string_loop p ++ String dq "}")))))).
  rewrite Unmarshal_object.
  rewrite (members_one _ (string_loop "device_path" ++ String dq (String ":"
             (String dq (string_loop p ++ String dq "}"))))
             (string_loop p ++ String dq "}") "device_path" (ToValid p)).
  - reflexivity.
  - apply (unquote_string_loop _ 11). reflexivity.
  - apply unquote_string_loop_any. apply Nat.le_refl.
Qed.

(** A valid text is left as it is. *)
Lemma ToValid_valid (p : string) : ValidString p = true -> ToValid p = p.
Proof.
  intros Hv.
  pose proof (unquote_string_loop EmptyString (String.length p) p Hv) as H1.
  pose proof (unquote_string_loop_any EmptyString (String.length p) p (Nat.le_refl _)) as H2.
  rewrite H1 in H2. injection H2 as H2. symmetry. exact H2.
Qed.

Lemma valid_loop_more :
  forall (f1 : nat) (s : string) (f2 : nat),
    (String.length s <= f1)%nat -> (String.length s <= f2)%nat ->
    valid_loop f1 s = valid_loop f2 s.
Proof.
  induction f1 as [| f1 IH]; intros s f2 H1 H2;
    (destruct s as [| a0 t0]; [destruct f2; reflexivity |]).
  - cbn in H1. lia.
  - destruct f2 as [| f2]; [cbn in H2; lia |].
    cbn [valid_loop].
    destruct (DecodeRuneInString (String a0 t0)) as [c size].
    destruct ((c =? RuneError) && Nat.eqb size 1)%bool; [reflexivity |].
    destruct (Utf8.after size (String a0 t0)) as [r |] eqn:Hafter; [| reflexivity].
    pose proof (after_length _ _ _ Hafter) as Hshort.
    cbn [String.length] in *. apply IH; lia.
Qed.

(** A text is valid when its first rune is well formed and the rest is
    valid. *)
Lemma ValidString_step (a0 : ascii) (t X : string) :
  is_error (DecodeRuneInString (String a0 t)) = false ->
  Utf8.after (snd (DecodeRuneInString (String a0 t))) (String a0 t) = Some X ->
  ValidString (String a0 t) = ValidString X.
Proof.
  intros Hok Hafter. unfold ValidString. cbn [String.length valid_loop].
  unfold is_error in Hok.
  destruct (DecodeRuneInString (String a0 t)) as [c size]. cbn [fst snd] in *.
  rewrite Hok, Hafter.
  pose proof (after_length _ _ _ Hafter) as Hshort. cbn [String.length] in Hshort.
  apply valid_loop_more; lia.
Qed.

Lemma ValidString_replacement (X : string) :
  ValidString (EncodeRune RuneError ++ X) = ValidString X.
Proof.
  change (EncodeRune RuneError ++ X)
    with (String (byte 0xEF) (String (byte 0xBF) (String (byte 0xBD) X))).
  apply ValidString_step; rewrite DecodeRuneInString_form; reflexivity.
Qed.

Lemma coerce_loop_valid :
  forall (fuel : nat) (s : string),
    (String.length s <= fuel)%nat -> ValidString (coerce_loop fuel s) = true.
Proof.
  induction fuel as [| fuel IH]; intros s Hlen.
  - destruct s; reflexivity.
  - destruct s as [| a0 t0]; [reflexivity |].
    cbn [String.length] in Hlen. cbn [coerce_loop].
    destruct (Z.lt_ge_cases (byteZ a0) 0x80) as [Hlt | Hge].
    + rewrite (decode_ascii a0 t0 Hlt), (not_error_ascii a0 Hlt).
      cbn [Utf8.after substring]. rewrite substring_0_0. cbn [append].
      rewrite (ValidString_step a0 _ (coerce_loop fuel t0)).
      * apply IH. lia.
      * rewrite decode_ascii by assumption. exact (not_error_ascii a0 Hlt).
      * rewrite decode_ascii by assumption. reflexivity.
    + destruct (is_error (DecodeRuneInString (String a0 t0))) eqn:Herr.
      * unfold is_error in Herr.
        destruct (DecodeRuneInString (String a0 t0)) as [c size]. cbn [fst snd] in Herr.
        rewrite Herr, ValidString_replacement. apply IH. lia.
      * pose proof Herr as Hok. rewrite DecodeRuneInString_form in Hok.
        destruct (encode_decoded a0 t0 Hge Hok) as (r & Hafter & Hs & Hsub).
        pose proof (after_length _ _ _ Hafter) as Hshort. cbn [String.length] in Hshort.
        pose proof (after_substring _ _ _ (coerce_loop fuel r) Hafter) as Hafter'.
        pose proof (decode_form_tail a0 t0 Hok (coerce_loop fuel r)) as Htail.
        rewrite (substring_head _ _ _ _ Hafter) in Hafter'.
        rewrite DecodeRuneInString_form.
        unfold is_error in Hok.
        destruct (decode_form a0 t0) as [c size] eqn:D. cbn [fst snd] in *.
        rewrite Hok, Hafter, (substring_head _ _ _ _ Hafter). cbn [append].
        rewrite (ValidString_step a0 _ (coerce_loop fuel r)).
        -- apply IH. lia.
        -- rewrite DecodeRuneInString_form, Htail. exact Hok.
        -- rewrite DecodeRuneInString_form, Htail. exact Hafter'.
Qed.

Lemma ToValid_is_valid (p : string) : ValidString (ToValid p) = true.
Proof. apply coerce_loop_valid. apply Nat.le_refl. Qed.

(** X24: what comes back is always valid UTF-8, and it is the device path
    itself exactly when the device path is valid UTF-8. *)
Theorem roundtrip_identity_iff (p q : string) :
  Unmarshal (fst (Marshal (mkDeviceRequest p))) = Some (mkDeviceRequest q) ->
  ValidString q = true /\ (q = p <-> ValidString p = true).
Proof.
  rewrite Unmarshal_Marshal_any. intros H. injection H as <-.
  split; [apply ToValid_is_valid |]. split.
  - intros E. rewrite <- E. apply ToValid_is_valid.
  - apply ToValid_valid.
Qed.

Lemma roundtrip_identity_iff_witness :
  ValidString (EncodeRune RuneError) = true
  /\ (EncodeRune RuneError = String (byte 0xFF) EmptyString
      <-> ValidString (String (byte 0xFF) EmptyString) = true).
Proof.
  apply (roundtrip_identity_iff (String (byte 0xFF) EmptyString) (EncodeRune RuneError)).
  vm_compute. reflexivity.
Defined.

End CoerceFacts.

Module PayloadFacts.

Import Shimclient Containerdshim Cli Katautils ClientFacts CliTrace.
Import Utf8 Utf8Coerce CoerceFacts.

Section Commands.

Variable defaultTimeout : Z.
Variable DeviceUrl : string.
Variable shim : list Call -> Call -> string * option error.

(** X25: with a valid identifier, what attach and detach send is a JSON text
    that decodes to the device path coerced to valid UTF-8, hence to the
    device path itself when it is valid UTF-8, the empty path included. *)
Theorem payload_decodes (w : World) :
  VerifyContainerID (sandboxID w) = None ->
  exists ca cd : Call, exists body : string,
    calls (snd (attachDeviceAction defaultTimeout DeviceUrl shim w))
    = (calls w ++ [ca])%list
    /\ calls (snd (detachDeviceAction defaultTimeout DeviceUrl shim w))
       = (calls w ++ [cd])%list
    /\ payload_of ca = Some body /\ payload_of cd = Some body
    /\ Json.Unmarshal body = Some {| DevicePath := ToValid (devPath w) |}
    /\ (ValidString (devPath w) = true ->
        Json.Unmarshal body = Some {| DevicePath := devPath w |}).
Proof.
  intros Hv.
  exists (putCall defaultTimeout DeviceUrl w), (deleteCall defaultTimeout DeviceUrl w).
  exists (fst (Json.Marshal {| DevicePath := devPath w |})).
  rewrite (attach_valid defaultTimeout DeviceUrl shim w Hv).
  rewrite (detach_valid defaultTimeout DeviceUrl shim w Hv).
  split; [reflexivity |]. split; [reflexivity |].
  split; [reflexivity |]. split; [reflexivity |].
  split; [apply Unmarshal_Marshal_any |].
  intros Hp. rewrite Unmarshal_Marshal_any, (ToValid_valid _ Hp). reflexivity.
Qed.

End Commands.

Lemma payload_decodes_witness :
  exists ca cd : Call, exists body : string,
    calls (snd (attachDeviceAction 3000000000 "/device" Example.quiet
                  (mkWorld "abc-1" "" [] ""))) = [ca]
    /\ calls (snd (detachDeviceAction 3000000000 "/device" Example.quiet
                     (mkWorld "abc-1" "" [] ""))) = [cd]
    /\ payload_of ca = Some body /\ payload_of cd = Some body
    /\ Json.Unmarshal body = Some {| DevicePath := "" |}.
Proof.
  assert (Hv : VerifyContainerID "abc-1" = None) by (vm_compute; reflexivity).
  destruct (payload_decodes 3000000000 "/device" Example.quiet
              (mkWorld "abc-1" "" [] "") Hv)
    as (ca & cd & body & H1 & H2 & H3 & H4 & H5 & _).
  exists ca, cd, body.
  split; [exact H1 |]. split; [exact H2 |]. split; [exact H3 |].
  split; [exact H4 | exact H5].
Defined.

End PayloadFacts.
